(** * Uptime Kuma: the Tailscale ping checker, the heartbeat views and the
      server's timezone and client-address resolution

    A shallow embedding of
      - [server/monitor-types/tailscale-ping.js] ([TailscalePing]),
      - [server/model/heartbeat.js] ([Heartbeat]),
      - [UptimeKumaServer.getClientIP], [getTimezone], [checkTimezone],
        [setTimezone], [start], [stop], the maintenance and monitor lists
        of the server class,
      - [flipStatus], [intHash], [getCryptoRandomInt], [genSecret],
        [parseTimeObject] and [parseTimeFromTimeObject] of [src/util.js],
    together with the fragment of ECMAScript these functions rely on
    ([String.prototype.includes], [split], [trim], [replace] with an anchored
    literal pattern, [parseInt], truthiness, [ToString]).

    Conventions.  A JavaScript string is a [string]: a sequence of code units,
    here restricted to the range 0..255.  An integer-valued Number is carried
    as the mathematical integer it denotes ([Fin z] stands for the Number
    nearest to [z], which is [z] itself below 2^53); [NaN] is separate.  The
    one genuinely fractional computation, the child-process timeout, is done
    in binary64 with the kernel's primitive floats.  A function that can throw
    returns a [Completion]; a function that mutates the heartbeat it is given
    threads that heartbeat through explicitly and hands it back on both the
    normal and the throwing path, because the caller keeps its reference to
    the object after an exception. *)

From Stdlib Require Import ZArith List Bool Ascii String DecimalString Lia PrimFloat.
From Stdlib Require Import Permutation DecimalPos.
Import ListNotations.
Open Scope list_scope.
Open Scope string_scope.

(* ------------------------------------------------------------------ *)
(** ** ECMAScript fragment *)

Module JS.

(** Numbers that are NaN or integer-valued. *)
Inductive JSNumber : Type :=
| NaN
| Fin (z : Z).

Inductive JSValue : Type :=
| VUndefined
| VNull
| VBool (b : bool)
| VNum (n : JSNumber)
| VStr (s : string)
| VArr (xs : list string).

(** What [throw] can carry in the modelled code: [new Error(message)], or
    the engine's [TypeError] for a property read on [undefined]. *)
Inductive JSError : Type :=
| Error (message : string)
| TypeError (message : string).

Inductive Completion (A : Type) : Type :=
| Normal (a : A)
| Throw (e : JSError).
Arguments Normal {A} a.
Arguments Throw {A} e.

(** ToBoolean. *)
Definition truthy (v : JSValue) : bool :=
  match v with
  | VUndefined | VNull => false
  | VBool b => b
  | VNum NaN => false
  | VNum (Fin z) => negb (Z.eqb z 0)
  | VStr s => negb (String.eqb s EmptyString)
  | VArr _ => true
  end.

(** [a || b]. *)
Definition or_else (a b : JSValue) : JSValue := if truthy a then a else b.

(** The double-quote character, for template literals that embed it. *)
Definition dquote : string := String (ascii_of_nat 34) EmptyString.

(** *** String searching *)

Fixpoint drop (n : nat) (s : string) : string :=
  match n with
  | O => s
  | S k => match s with
           | EmptyString => EmptyString
           | String _ s' => drop k s'
           end
  end.

(** [s.includes(pat)]. *)
Fixpoint includes (pat s : string) : bool :=
  prefix pat s ||
  match s with
  | EmptyString => false
  | String _ s' => includes pat s'
  end.

(** The text of [s] in front of the first occurrence of [sep]; all of [s]
    when there is none. *)
Fixpoint before (sep s : string) : string :=
  if prefix sep s then EmptyString
  else match s with
       | EmptyString => EmptyString
       | String c s' => String c (before sep s')
       end.

(** The text of [s] behind the first occurrence of [sep], if there is one. *)
Fixpoint after (sep s : string) : option string :=
  if prefix sep s then Some (drop (length sep) s)
  else match s with
       | EmptyString => None
       | String _ s' => after sep s'
       end.

(** [s.split(sep)] for a string separator: one left-to-right pass that cuts
    at each occurrence of [sep] and resumes behind it ([skip] counts the
    separator's code units still to pass over, [cur] is the piece being
    collected). *)
Fixpoint split_go (sep s : string) (skip : nat) (cur : string) : list string :=
  match s with
  | EmptyString => [cur]
  | String c s' =>
      match skip with
      | S k => split_go sep s' k cur
      | O =>
          if prefix sep s
          then cur :: split_go sep s' (length sep - 1) EmptyString
          else split_go sep s' 0 (cur ++ String c EmptyString)
      end
  end.

Definition split (sep s : string) : list string :=
  match sep with
  | EmptyString => map (fun c => String c EmptyString) (list_ascii_of_string s)
  | _ => split_go sep s 0 EmptyString
  end.

(** [xs[i]]: [None] is [undefined]. *)
Definition index {A : Type} (xs : list A) (i : nat) : option A := nth_error xs i.

(** *** White space, [trim], anchored [replace] *)

(** WhiteSpace and LineTerminator code units below 256. *)
Definition isStrWhiteSpaceChar (c : ascii) : bool :=
  let n := nat_of_ascii c in
  (((9 <=? n) && (n <=? 13)) || (n =? 32) || (n =? 160))%nat.

Fixpoint trimStart (s : string) : string :=
  match s with
  | EmptyString => EmptyString
  | String c s' => if isStrWhiteSpaceChar c then trimStart s' else s
  end.

Fixpoint trimEnd (s : string) : string :=
  match s with
  | EmptyString => EmptyString
  | String c s' =>
      match trimEnd s' with
      | EmptyString => if isStrWhiteSpaceChar c then EmptyString
                       else String c EmptyString
      | t => String c t
      end
  end.

Definition trim (s : string) : string := trimEnd (trimStart s).

(** [s.replace(/^lit/, "")] for a literal [lit]. *)
Definition replace_prefix (lit s : string) : string :=
  if prefix lit s then drop (length lit) s else s.

(** *** [parseInt(string)] with no radix argument *)

Definition digitValue (c : ascii) : option Z :=
  let n := Z.of_nat (nat_of_ascii c) in
  if ((48 <=? n) && (n <=? 57))%Z then Some (n - 48)%Z
  else if ((97 <=? n) && (n <=? 122))%Z then Some (n - 87)%Z
  else if ((65 <=? n) && (n <=? 90))%Z then Some (n - 55)%Z
  else None.

(** The value of the longest prefix of radix-[R] digits; [None] when that
    prefix is empty. *)
Fixpoint digits (R : Z) (s : string) (acc : option Z) : option Z :=
  match s with
  | EmptyString => acc
  | String c s' =>
      match digitValue c with
      | Some d =>
          if (d <? R)%Z
          then digits R s' (Some (match acc with
                                  | None => d
                                  | Some a => (a * R + d)%Z
                                  end))
          else acc
      | None => acc
      end
  end.

Definition parseInt (input : string) : JSNumber :=
  let s := trimStart input in
  let '(sign, s) :=
    match s with
    | String "-"%char r => ((-1)%Z, r)
    | String "+"%char r => (1%Z, r)
    | _ => (1%Z, s)
    end in
  let '(R, s) :=
    match s with
    | String "0"%char (String "x"%char r) => (16%Z, r)
    | String "0"%char (String "X"%char r) => (16%Z, r)
    | _ => (10%Z, s)
    end in
  match digits R s None with
  | None => NaN
  | Some m => Fin (sign * m)%Z
  end.

(** [parseInt(xs[i])]: [undefined] is first turned into its name. *)
Definition parseInt_opt (v : option string) : JSNumber :=
  parseInt (match v with Some s => s | None => "undefined" end).

End JS.

Import JS.

(* ------------------------------------------------------------------ *)
(** ** src/util: status codes *)

Definition DOWN : JSValue := VNum (Fin 0).
Definition UP : JSValue := VNum (Fin 1).
Definition PENDING : JSValue := VNum (Fin 2).
Definition MAINTENANCE : JSValue := VNum (Fin 3).

(** A call of [log.<level>(module, msg)]. *)
Inductive LogLevel : Type := Debug | Warn.

Record LogEntry : Type := mkLog {
  log_level : LogLevel;
  log_module : string;
  log_msg : string
}.

(* ------------------------------------------------------------------ *)
(** ** server/model/heartbeat.js *)

Module Heartbeat.

(** The bean's columns, as the two views read them off [this]. *)
Record t : Type := mk {
  monitor_id : JSValue;
  status : JSValue;
  time : JSValue;
  msg : JSValue;
  ping : JSValue;
  important : JSValue;
  duration : JSValue
}.

(** An object literal: its properties in the order they are written. *)
Definition JSObject : Type := list (string * JSValue).

Fixpoint get (k : string) (o : JSObject) : option JSValue :=
  match o with
  | [] => None
  | (k', v) :: o' => if String.eqb k k' then Some v else get k o'
  end.

Definition keys (o : JSObject) : list string := map fst o.

Definition toPublicJSON (this : t) : JSObject :=
  [ ("status", status this);
    ("time", time this);
    ("msg", VStr EmptyString);
    ("ping", ping this) ].

Definition toJSON (this : t) : JSObject :=
  [ ("monitorID", monitor_id this);
    ("status", status this);
    ("time", time this);
    ("msg", msg this);
    ("ping", ping this);
    ("important", important this);
    ("duration", duration this) ].

(** The spec's wording of the public view: the full view with [msg] forced
    to the empty string.  (Not what [toPublicJSON] computes; kept to compare
    the two.) *)
Definition full_with_blank_msg (this : t) : JSObject :=
  map (fun kv => if String.eqb (fst kv) "msg"
                 then (fst kv, VStr EmptyString) else kv)
      (toJSON this).

(** Two objects with the same properties and values, whatever their order. *)
Definition same_object (a b : JSObject) : Prop :=
  forall k, get k a = get k b.

Definition set_status (v : JSValue) (h : t) : t :=
  mk (monitor_id h) v (time h) (msg h) (ping h) (important h) (duration h).
Definition set_ping (v : JSValue) (h : t) : t :=
  mk (monitor_id h) (status h) (time h) (msg h) v (important h) (duration h).
Definition set_msg (v : JSValue) (h : t) : t :=
  mk (monitor_id h) (status h) (time h) v (ping h) (important h) (duration h).

End Heartbeat.

(* ------------------------------------------------------------------ *)
(** ** server/monitor-types/tailscale-ping.js *)

Module TailscalePing.

(** A computation over the heartbeat object the caller passed in: it ends
    normally or by a throw, and the heartbeat is what the caller sees
    afterwards in either case. *)
Definition M (A : Type) : Type := Heartbeat.t -> Heartbeat.t * Completion A.

Definition ret {A : Type} (a : A) : M A := fun h => (h, Normal a).

Definition throw {A : Type} (e : JSError) : M A := fun h => (h, Throw e).

Definition bind {A B : Type} (m : M A) (k : A -> M B) : M B :=
  fun h =>
    match m h with
    | (h', Normal a) => k a h'
    | (h', Throw e) => (h', Throw e)
    end.

Definition assign (f : Heartbeat.t -> Heartbeat.t) : M unit :=
  fun h => (f h, Normal tt).

Notation "x <- m ;; k" := (bind m (fun x => k))
  (at level 61, m at next level, right associativity).
Notation "m ;; k" := (bind m (fun _ => k))
  (at level 61, right associativity).

(** V8's message for reading property [p] of [undefined]. *)
Definition undefined_read (p : string) : JSError :=
  TypeError ("Cannot read properties of undefined (reading '" ++ p ++ "')").

(** [v.split(...)] where [v] may be [undefined]. *)
Definition receiver (p : string) (v : option string) : M string :=
  match v with
  | Some s => ret s
  | None => throw (undefined_read p)
  end.

Definition LF : string := String (ascii_of_nat 10) EmptyString.

Definition quoted (line : string) : string := dquote ++ line ++ dquote.

(** How one turn of the loop ends. *)
Inductive Flow : Type := Next | Break.

(** The body of [for (let line of lines)]. *)
Definition body (line : string) : M Flow :=
  if includes "pong from" line then
    assign (Heartbeat.set_status UP) ;;
    seg <- receiver "split" (index (split " in " line) 1) ;;
    let time := index (split " " seg) 0 in
    assign (Heartbeat.set_ping (VNum (parseInt_opt time))) ;;
    assign (Heartbeat.set_msg (VStr line)) ;;
    ret Break
  else if includes "timed out" line then
    throw (Error ("Ping timed out: " ++ quoted line))
  else if includes "no matching peer" line then
    throw (Error ("Nonexistant or inaccessible due to ACLs: " ++ quoted line))
  else if includes "is local Tailscale IP" line then
    throw (Error ("Tailscale only works if used on other machines: " ++ quoted line))
  else if negb (String.eqb line EmptyString) then
    throw (Error ("Unexpected output: " ++ quoted line))
  else ret Next.

Fixpoint for_of (lines : list string) : M unit :=
  match lines with
  | [] => ret tt
  | line :: rest =>
      flow <- body line ;;
      match flow with
      | Break => ret tt
      | Next => for_of rest
      end
  end.

Definition parseTailscaleOutput (tailscaleOutput : string) : M unit :=
  for_of (split LF tailscaleOutput).

(** The spec's names for the four failures the loop raises. *)
Definition Timeout (line : string) : JSError :=
  Error ("Ping timed out: " ++ quoted line).
Definition PeerUnreachable (line : string) : JSError :=
  Error ("Nonexistant or inaccessible due to ACLs: " ++ quoted line).
Definition SelfTargetInvalid (line : string) : JSError :=
  Error ("Tailscale only works if used on other machines: " ++ quoted line).
Definition UnexpectedOutput (line : string) : JSError :=
  Error ("Unexpected output: " ++ quoted line).

(** The failure the loop raises at a line that is neither a pong nor
    blank: the first marker in the order of the [else if] chain decides. *)
Definition failure_of (line : string) : JSError :=
  if includes "timed out" line then Timeout line
  else if includes "no matching peer" line then PeerUnreachable line
  else if includes "is local Tailscale IP" line then SelfTargetInvalid line
  else UnexpectedOutput line.

(** The first line that is not the empty string, if any: the line at
    which the loop ends. *)
Definition first_decisive (lines : list string) : option string :=
  find (fun line => negb (String.eqb line EmptyString)) lines.

(** *** [runTailscalePing] *)

(** The options object handed to [child_process.exec]. *)
Record ExecOptions : Type := { timeout : float }.

(** What [exec] hands to its callback: [error.message] when [error] is
    set, and the two streams. *)
Record ExecResult : Type := {
  error : option string;
  stdout : string;
  stderr : string
}.

Inductive Promise (A : Type) : Type :=
| Resolved (a : A)
| Rejected (reason : string).
Arguments Resolved {A} a.
Arguments Rejected {A} reason.

(** 0.8 as JavaScript reads the literal: the nearest binary64 value. *)
Definition ratio : float := 0x1.999999999999ap-1%float.

Section Exec.
(** [child_process.exec]: the command line and options go in, the
    callback's arguments come out. *)
Variable exec : string -> ExecOptions -> ExecResult.

(** The callback [(error, stdout, stderr) => ...] that settles the
    promise. *)
Definition settle (r : ExecResult) : Promise string :=
  match error r with
  | Some message => Rejected ("Execution error: " ++ message)
  | None =>
      if truthy (VStr (stderr r))
      then Rejected ("Error in output: " ++ stderr r)
      else Resolved (stdout r)
  end.

Definition runTailscalePing (hostname : string) (interval : float)
  : list LogEntry * Promise string :=
  let cmd := "tailscale ping " ++ hostname in
  let timeout := (interval * 1000 * ratio)%float in
  ([mkLog Debug "Tailscale" cmd],
   settle (exec cmd {| timeout := timeout |})).

(** [`${err}`]: an Error prints as its name and message, a rejection
    reason is already a string. *)
Definition describe (e : JSError) : string :=
  match e with
  | Error m => "Error: " ++ m
  | TypeError m => "TypeError: " ++ m
  end.

Record Monitor : Type := { hostname : string; interval : float }.

Definition rethrow (log : list LogEntry) (h : Heartbeat.t) (err : string)
  : list LogEntry * (Heartbeat.t * Completion unit) :=
  ((log ++ [mkLog Debug "Tailscale" err])%list,
   (h, Throw (Error ("Error checking Tailscale ping: " ++ err)))).

Definition check (monitor : Monitor) (heartbeat : Heartbeat.t)
  : list LogEntry * (Heartbeat.t * Completion unit) :=
  let '(log, tailscaleOutput) :=
    runTailscalePing (hostname monitor) (interval monitor) in
  match tailscaleOutput with
  | Rejected reason => rethrow log heartbeat reason
  | Resolved out =>
      match parseTailscaleOutput out heartbeat with
      | (h, Normal _) => (log, (h, Normal tt))
      | (h, Throw e) => rethrow log h (describe e)
      end
  end.
End Exec.

End TailscalePing.

(* ------------------------------------------------------------------ *)
(** ** The server class: client address and timezone *)

Module UptimeKumaServer.

(** [String(v)], as string concatenation applies it. *)
Definition ToString (v : JSValue) : string :=
  match v with
  | VUndefined => "undefined"
  | VNull => "null"
  | VBool true => "true"
  | VBool false => "false"
  | VNum NaN => "NaN"
  | VNum (Fin z) => DecimalString.NilZero.string_of_int (Z.to_int z)
  | VStr s => s
  | VArr xs => String.concat "," xs
  end.

(** The part of a socket that [getClientIP] reads:
    [socket.client.conn.remoteAddress] ([None] is [undefined]) and
    [socket.client.conn.request.headers]. *)
Record Socket : Type := {
  remoteAddress : option string;
  headers : string -> JSValue
}.

(** A writer for the log lines a function emits on its way. *)
Definition W (A : Type) : Type := (list LogEntry * A)%type.

Definition say (level : LogLevel) (module msg : string) : W unit :=
  ([mkLog level module msg], tt).

Definition done {A : Type} (a : A) : W A := ([], a).

Definition andThen {A B : Type} (m : W A) (k : A -> W B) : W B :=
  let '(l1, a) := m in
  let '(l2, b) := k a in
  ((l1 ++ l2)%list, b).

Notation "m >> k" := (andThen m (fun _ => k))
  (at level 61, right associativity).

Definition error_message (e : JSError) : string :=
  match e with
  | Error m => m
  | TypeError m => m
  end.

Section Server.
(** [await Settings.get(key)]: the settings store is outside this
    class. *)
Variable Settings_get : string -> JSValue.

(** Whether [dayjs.utc("2013-11-18 11:55").tz(timezone).format()]
    returns ([true]) or throws ([false]). *)
Variable tz_formats : JSValue -> bool.

Definition getClientIP (socket : Socket) : Completion JSValue :=
  let clientIP :=
    match remoteAddress socket with
    | None => EmptyString
    | Some a => a
    end in
  if truthy (Settings_get "trustProxy") then
    let forwardedFor := headers socket "x-forwarded-for" in
    let stripped := VStr (replace_prefix "::ffff:" clientIP) in
    match forwardedFor with
    | VStr s =>
        match index (split "," s) 0 with
        | Some first =>
            Normal (or_else (or_else (VStr (trim first))
                                     (headers socket "x-real-ip"))
                            stripped)
        | None => Throw (TypeError
            "Cannot read properties of undefined (reading 'trim')")
        end
    | _ =>
        Normal (or_else (or_else VNull (headers socket "x-real-ip"))
                        stripped)
    end
  else Normal (VStr (replace_prefix "::ffff:" clientIP)).

Definition checkTimezone (timezone : JSValue) : Completion unit :=
  if tz_formats timezone then Normal tt
  else Throw (Error ("Invalid timezone:" ++ ToString timezone)).

(** The last step of [getTimezone]: [guess] is what [dayjs.tz.guess()]
    did. *)
Definition fromGuess (guess : Completion JSValue) : W JSValue :=
  let invalid :=
    say Debug "timezone" "Guessed an invalid timezone. Use UTC as fallback"
    >> done (VStr "UTC") in
  match guess with
  | Throw _ => invalid
  | Normal g =>
      say Debug "timezone" ("Guessing timezone: " ++ ToString g) >>
      if truthy g then
        match checkTimezone g with
        | Normal _ => done g
        | Throw _ => invalid
        end
      else done (VStr "UTC")
  end.

(** The middle step: the persisted setting. *)
Definition fromSettings (guess : Completion JSValue) : W JSValue :=
  let timezone := Settings_get "serverTimezone" in
  say Debug "timezone" ("Using timezone from settings: " ++ ToString timezone) >>
  if truthy timezone then
    match checkTimezone timezone with
    | Normal _ => done timezone
    | Throw e =>
        say Warn "timezone" (error_message e ++ " in settings") >>
        fromGuess guess
    end
  else fromGuess guess.

(** [env_TZ] is [process.env.TZ] ([None] when the variable is unset). *)
Definition getTimezone (env_TZ : option string)
                       (guess : Completion JSValue) : W JSValue :=
  match env_TZ with
  | Some tz =>
      if truthy (VStr tz) then
        match checkTimezone (VStr tz) with
        | Normal _ => done (VStr tz)
        | Throw e =>
            say Warn "timezone" (error_message e ++ " in process.env.TZ") >>
            fromSettings guess
        end
      else fromSettings guess
  | None => fromSettings guess
  end.
End Server.

(** The spec's wording of client-address resolution: the address is picked
    as [getClientIP] picks it (the first of the forwarded-for entry, the
    real-ip header and the socket's own address that is set), and the
    IPv4-mapped prefix is stripped from whatever was picked.  (Not what
    [getClientIP] computes; kept to compare the two.) *)
Definition strip_value (v : JSValue) : JSValue :=
  match v with
  | VStr s => VStr (replace_prefix "::ffff:" s)
  | _ => v
  end.

(** The socket's own address, [undefined] read as the empty string. *)
Definition own_address (socket : Socket) : string :=
  match remoteAddress socket with
  | None => EmptyString
  | Some a => a
  end.

(** The first entry of the forwarded-for header, trimmed; [null] when the
    header is not a string. *)
Definition forwarded_first (socket : Socket) : JSValue :=
  match headers socket "x-forwarded-for" with
  | VStr s => VStr (trim (before "," s))
  | _ => VNull
  end.

Definition stripped_in_all_cases (Settings_get : string -> JSValue)
                                 (socket : Socket) : JSValue :=
  let picked :=
    if truthy (Settings_get "trustProxy") then
      or_else (or_else (forwarded_first socket) (headers socket "x-real-ip"))
              (VStr (own_address socket))
    else VStr (own_address socket) in
  strip_value picked.

End UptimeKumaServer.

(* ------------------------------------------------------------------ *)
(** ** src/util.js: status flipping, hashing, random secrets, times of day *)

Module Util.
Local Open Scope Z_scope.

(** [v === w] where one side is known to be a Number: equal integers, and
    never [NaN]. *)
Definition same_number (v w : JSValue) : bool :=
  match v, w with
  | VNum (Fin a), VNum (Fin b) => Z.eqb a b
  | _, _ => false
  end.

Definition flipStatus (s : JSValue) : JSValue :=
  if same_number s UP then DOWN
  else if same_number s DOWN then UP
  else s.

(** [a % b] on integers: the remainder has the sign of the dividend, and a
    zero divisor gives [NaN]. *)
Definition remainder (a b : Z) : JSNumber :=
  if Z.eqb b 0 then NaN else Fin (Z.rem a b).

(** The loop [for (i = 0; i < str.length; i++) hash += str.charCodeAt(i)]. *)
Fixpoint charCodeSum (str : string) (hash : Z) : Z :=
  match str with
  | EmptyString => hash
  | String c rest => charCodeSum rest (hash + Z.of_nat (nat_of_ascii c))
  end.

Definition intHash (str : string) (length : Z) : JSNumber :=
  let hash := charCodeSum str 0 in
  match remainder hash length with
  | NaN => NaN
  | Fin r => remainder (r + length) length
  end.




(** *** 32-bit integer operators *)

Definition ToInt32 (z : Z) : Z := (z + 2 ^ 31) mod 2 ^ 32 - 2 ^ 31.
Definition ToUint32 (z : Z) : Z := z mod 2 ^ 32.

(** [a << b], [a >>> b], [a | b], [a & b]. *)
Definition shl (a b : Z) : Z :=
  ToInt32 (Z.shiftl (ToInt32 a) (ToUint32 b mod 32)).
Definition ushr (a b : Z) : Z :=
  Z.shiftr (ToUint32 a) (ToUint32 b mod 32).
Definition bor (a b : Z) : Z := ToInt32 (Z.lor (ToInt32 a) (ToInt32 b)).
Definition band (a b : Z) : Z := ToInt32 (Z.land (ToInt32 a) (ToInt32 b)).

(** *** [getCryptoRandomInt] and [genSecret] *)

(** The four variables of the sizing loop. *)
Record Sizing : Type := {
  tmpRange : Z;
  bitsNeeded : Z;
  bytesNeeded : Z;
  mask : Z
}.

(** One turn of [while (tmpRange > 0)]. *)
Definition sizing_step (w : Sizing) : Sizing :=
  {| bytesNeeded := if Z.eqb (Z.rem (bitsNeeded w) 8) 0
                    then bytesNeeded w + 1 else bytesNeeded w;
     bitsNeeded := bitsNeeded w + 1;
     mask := bor (shl (mask w) 1) 1;
     tmpRange := ushr (tmpRange w) 1 |}.

(** The loop itself; [None] when [fuel] turns do not end it. *)
Fixpoint sizing (fuel : nat) (w : Sizing) : option Sizing :=
  if Z.gtb (tmpRange w) 0 then
    match fuel with
    | O => None
    | S fuel' => sizing fuel' (sizing_step w)
    end
  else Some w.

(** [for (i = 0; i < bytesNeeded; i++) randomValue |= randomBytes[i] << 8 * i],
    over the bytes that were drawn. *)
Fixpoint assemble (randomBytes : list Z) (i randomValue : Z) : Z :=
  match randomBytes with
  | [] => randomValue
  | b :: rest => assemble rest (i + 1) (bor randomValue (shl b (8 * i)))
  end.

(** What the random functions leave behind: how many bytes of the random
    source are used up, and the lines written with [console.log]. *)
Record Drawn : Type := {
  used : nat;
  console : list string
}.

Definition charAt (s : string) (i : Z) : string :=
  if Z.ltb i 0 then EmptyString
  else match String.get (Z.to_nat i) s with
       | Some c => String c EmptyString
       | None => EmptyString
       end.

Definition chars : string :=
  "ABCDEFGHIJKLMNOPQRSTUVWXYZabcdefghijklmnopqrstuvwxyz0123456789".

Section Random.
(** The bytes the system's random generator hands out, in order. *)
Variable source : nat -> Init.Byte.byte.

(** [getRandomBytes(numBytes)]. *)
Definition getRandomBytes (numBytes : Z) (d : Drawn) : list Z * Drawn :=
  let n := Z.to_nat numBytes in
  (map (fun k => Z.of_N (Strings.Byte.to_N (source k))) (seq (used d) n),
   {| used := (used d + n)%nat; console := console d |}).

(** [depth] bounds the nesting of the recursive retries; [None] when they
    do not end within it. *)
Fixpoint getCryptoRandomInt (depth : nat) (min max : Z) (d : Drawn)
  : option (Z * Drawn) :=
  match depth with
  | O => None
  | S depth' =>
      let range := max - min in
      let d :=
        if Z.geb range (2 ^ 32)
        then {| used := used d;
                console := (console d ++ ["Warning! Range is too large."])%list |}
        else d in
      match sizing 33 {| tmpRange := range; bitsNeeded := 0;
                         bytesNeeded := 0; mask := 1 |} with
      | None => None
      | Some w =>
          let '(randomBytes, d) := getRandomBytes (bytesNeeded w) d in
          let randomValue := band (assemble randomBytes 0 0) (mask w) in
          if Z.leb randomValue range then Some (min + randomValue, d)
          else getCryptoRandomInt depth' min max d
      end
  end.

(** The loop of [genSecret], [count] characters still to add. *)
Fixpoint genSecret_loop (depth count : nat) (secret : string) (d : Drawn)
  : option (string * Drawn) :=
  match count with
  | O => Some (secret, d)
  | S count' =>
      let charsLength := Z.of_nat (String.length chars) in
      match getCryptoRandomInt depth 0 (charsLength - 1) d with
      | None => None
      | Some (i, d') =>
          genSecret_loop depth count' (secret ++ charAt chars i) d'
      end
  end.

Definition genSecret (depth length : nat) (d : Drawn) : option (string * Drawn) :=
  genSecret_loop depth length EmptyString d.
End Random.

(** *** Times of day *)

(** [{hours, minutes}] or [{hours, minutes, seconds}]. *)
Record TimeObject : Type := {
  hours : JSNumber;
  minutes : JSNumber;
  seconds : option JSNumber
}.

(** [time] is a string, or [None] for [null] and [undefined]. *)
Definition parseTimeObject (time : option string) : Completion TimeObject :=
  match time with
  | None => Normal {| hours := Fin 0; minutes := Fin 0; seconds := None |}
  | Some time =>
      if negb (truthy (VStr time))
      then Normal {| hours := Fin 0; minutes := Fin 0; seconds := None |}
      else
        let array := split ":" time in
        if Nat.ltb (List.length array) 2
        then Throw (Error "parseVueDatePickerTimeFormat: Invalid Time")
        else
          Normal {| hours := parseInt_opt (index array 0);
                    minutes := parseInt_opt (index array 1);
                    seconds :=
                      Some (if Nat.leb 3 (List.length array)
                            then parseInt_opt (index array 2)
                            else Fin 0) |}
  end.

Section Printing.
(** [Number.prototype.toString] beyond the safe integers: from 2^53 on the
    engine prints the shortest digits that read back as the same Number
    (and exponent notation from 10^21 on).  That printer belongs to the
    engine; it is taken as it comes. *)
Variable largeToString : Z -> string.

(** [n.toString()] for a Number: an integer up to 2^53 in size prints as
    all of its decimal digits. *)
Definition numberToString (n : JSNumber) : string :=
  match n with
  | NaN => "NaN"
  | Fin z =>
      if Z.leb (Z.abs z) (2 ^ 53)
      then DecimalString.NilZero.string_of_int (Z.to_int z)
      else largeToString z
  end.

(** The first [n] code units of [fill] repeated over and over. *)
Fixpoint filler (n : nat) (fill cur : string) : string :=
  match n with
  | O => EmptyString
  | S n' =>
      match cur with
      | String c cur' => String c (filler n' fill cur')
      | EmptyString =>
          match fill with
          | String c fill' => String c (filler n' fill fill')
          | EmptyString => EmptyString
          end
      end
  end.

(** [s.padStart(maxLength, fill)]. *)
Definition padStart (maxLength : nat) (fill s : string) : string :=
  filler (maxLength - String.length s)%nat fill fill ++ s.

Definition pad2 (n : JSNumber) : string := padStart 2 "0" (numberToString n).

(** [obj] is a time object, or [None] for [null] and [undefined], which are
    returned as they are. *)
Definition parseTimeFromTimeObject (obj : option TimeObject) : option string :=
  match obj with
  | None => None
  | Some obj =>
      let result := EmptyString in
      let result := result ++ (pad2 (hours obj) ++ ":" ++ pad2 (minutes obj)) in
      match seconds obj with
      | Some s =>
          if truthy (VNum s)
          then Some (result ++ (":" ++ pad2 s))
          else Some result
      | None => Some result
      end
  end.
End Printing.

End Util.

(* ------------------------------------------------------------------ *)
(** ** The server class: state, registries and services *)

Module UptimeKumaServerState.

(** What a method does to the outside world, in order. *)
Inductive Effect (Payload Entry : Type) : Type :=
| LogInfo (module msg : string)
| ExecSync (command : string) (stdio : option string)
| Emit (room : Z) (event : string) (payload : Payload)
| Run (entry : Entry).
Arguments LogInfo {Payload Entry} module msg.
Arguments ExecSync {Payload Entry} command stdio.
Arguments Emit {Payload Entry} room event payload.
Arguments Run {Payload Entry} entry.

(** An object whose keys are ids: assigning to a key that is there replaces
    its value, assigning to a new key adds it.  The pairs stand in the order
    of their first assignment, which carries no meaning: such an object is
    read through [lookup] only. *)
Definition Table (V : Type) : Type := list (Z * V).

Fixpoint lookup {V : Type} (k : Z) (o : Table V) : option V :=
  match o with
  | [] => None
  | (k', v) :: o' => if Z.eqb k k' then Some v else lookup k o'
  end.

Fixpoint assign {V : Type} (k : Z) (v : V) (o : Table V) : Table V :=
  match o with
  | [] => [(k, v)]
  | (k', v') :: o' =>
      if Z.eqb k k' then (k, v) :: o' else (k', v') :: assign k v o'
  end.

Section Server.
(** Beans of the two tables and their JSON views come from the model
    classes, the rows from the database, the settings from the settings
    store, [execSync] from [child_process]. *)
Variables Monitor Maintenance JSON Store : Type.
Variable monitor_id : Monitor -> Z.
Variable monitor_toJSON : Monitor -> JSON.
Variable maintenance_id : Maintenance -> Z.
Variable maintenance_toJSON : Maintenance -> JSON.
Variable R_find_monitors : Z -> list Monitor.
Variable Settings_get : Store -> string -> JSValue.
Variable Settings_set : string -> JSValue -> string -> Store -> Store * Completion unit.
Variable tz_formats : JSValue -> bool.
Variable env : string -> option string.
Variable execSync : string -> Completion unit.

Definition Eff : Type := Effect (Table JSON) Maintenance.

(** A method that acts on the outside world and may throw. *)
Definition Act (A : Type) : Type := (list Eff * Completion A)%type.

Definition pure {A : Type} (a : A) : Act A := ([], Normal a).

Definition perform (e : Eff) : Act unit := ([e], Normal tt).

Definition bind {A B : Type} (m : Act A) (k : A -> Act B) : Act B :=
  match m with
  | (es, Normal a) => let '(es', r) := k a in ((es ++ es')%list, r)
  | (es, Throw e) => (es, Throw e)
  end.

(** [try { body } catch (e) { handler }]. *)
Definition try_catch {A : Type} (body : Act A) (handler : JSError -> Act A)
  : Act A :=
  match body with
  | (es, Normal a) => (es, Normal a)
  | (es, Throw e) => let '(es', r) := handler e in ((es ++ es')%list, r)
  end.

Notation "m >>> k" := (bind m (fun _ => k))
  (at level 61, right associativity).

Definition run_execSync (command : string) (stdio : option string) : Act unit :=
  ([ExecSync command stdio], execSync command).

Definition env_set (name : string) : bool :=
  match env name with
  | Some v => truthy (VStr v)
  | None => false
  end.

Definition startNSCDServices : Act unit :=
  if env_set "UPTIME_KUMA_IS_CONTAINER" then
    try_catch
      (perform (LogInfo "services" "Starting nscd") >>>
       run_execSync "sudo service nscd start" (Some "pipe"))
      (fun _ => perform (LogInfo "services" "Failed to start nscd"))
  else pure tt.

Definition stopNSCDServices : Act unit :=
  if env_set "UPTIME_KUMA_IS_CONTAINER" then
    try_catch
      (perform (LogInfo "services" "Stopping nscd") >>>
       run_execSync "sudo service nscd stop" None)
      (fun _ => perform (LogInfo "services" "Failed to stop nscd"))
  else pure tt.

(** [enable || enable === null]. *)
Definition enabled (enable : JSValue) : bool :=
  truthy enable || match enable with VNull => true | _ => false end.

Definition start (store : Store) : Act unit :=
  let enable := Settings_get store "nscd" in
  if enabled enable then startNSCDServices else pure tt.

Definition stop (store : Store) : Act unit :=
  let enable := Settings_get store "nscd" in
  if enabled enable then stopNSCDServices else pure tt.

(** *** The two lists *)

(** [for (let monitor of monitorList) result[monitor.id] = monitor.toJSON()]. *)
Fixpoint collect_monitors (monitorList : list Monitor) (result : Table JSON)
  : Table JSON :=
  match monitorList with
  | [] => result
  | monitor :: rest =>
      collect_monitors rest (assign (monitor_id monitor) (monitor_toJSON monitor) result)
  end.

Definition getMonitorJSONList (userID : Z) : Table JSON :=
  collect_monitors (R_find_monitors userID) [].

(** [socket_userID] is [socket.userID]. *)
Definition sendMonitorList (socket_userID : Z) : Act (Table JSON) :=
  let list := getMonitorJSONList socket_userID in
  perform (Emit socket_userID "monitorList" list) >>> pure list.

(** [for (let maintenanceID in this.maintenanceList)
      result[maintenanceID] = this.maintenanceList[maintenanceID].toJSON()]. *)
Fixpoint collect_maintenances (entries : Table Maintenance) (result : Table JSON)
  : Table JSON :=
  match entries with
  | [] => result
  | (maintenanceID, maintenance) :: rest =>
      collect_maintenances rest
        (assign maintenanceID (maintenance_toJSON maintenance) result)
  end.

Definition getMaintenanceJSONList (maintenanceList : Table Maintenance)
                                  (userID : Z) : Table JSON :=
  collect_maintenances maintenanceList [].

Definition sendMaintenanceListByUserID (maintenanceList : Table Maintenance)
                                       (userID : Z) : Act (Table JSON) :=
  let list := getMaintenanceJSONList maintenanceList userID in
  perform (Emit userID "maintenanceList" list) >>> pure list.

Definition sendMaintenanceList (maintenanceList : Table Maintenance)
                               (socket_userID : Z) : Act (Table JSON) :=
  sendMaintenanceListByUserID maintenanceList socket_userID.

(** [rows] is what [R.findAll("maintenance", ...)] returned; the new
    [this.maintenanceList] comes back with the [run] calls made. *)
Fixpoint loadMaintenanceList (rows : list Maintenance)
                             (maintenanceList : Table Maintenance)
  : Table Maintenance * list Eff :=
  match rows with
  | [] => (maintenanceList, [])
  | maintenance :: rest =>
      let maintenanceList :=
        assign (maintenance_id maintenance) maintenance maintenanceList in
      let '(final, runs) := loadMaintenanceList rest maintenanceList in
      (final, Run maintenance :: runs)
  end.

(** [None] is [null]. *)
Definition getMaintenance (maintenanceList : Table Maintenance)
                          (maintenanceID : Z) : option Maintenance :=
  match lookup maintenanceID maintenanceList with
  | Some maintenance => Some maintenance
  | None => None
  end.

(** *** [setTimezone] *)

(** The settings store, [process.env.TZ] and the default zone of the date
    library. *)
Record Zone : Type := {
  store : Store;
  env_TZ : option string;
  tz_default : option string
}.

Definition setTimezone (timezone : string) (z : Zone) : Zone * Completion unit :=
  match UptimeKumaServer.checkTimezone tz_formats (VStr timezone) with
  | Throw e => (z, Throw e)
  | Normal _ =>
      match Settings_set "serverTimezone" (VStr timezone) "general" (store z) with
      | (store', Throw e) =>
          ({| store := store'; env_TZ := env_TZ z; tz_default := tz_default z |},
           Throw e)
      | (store', Normal _) =>
          ({| store := store'; env_TZ := Some timezone;
              tz_default := Some timezone |},
           Normal tt)
      end
  end.

(** [getTimezone] read off the same state. *)
Definition getTimezone (z : Zone) (guess : Completion JSValue)
  : UptimeKumaServer.W JSValue :=
  UptimeKumaServer.getTimezone (Settings_get (store z)) tz_formats (env_TZ z) guess.

End Server.

End UptimeKumaServerState.

(* ------------------------------------------------------------------ *)
(** ** Sample data used by the closed examples below *)

Definition sample_heartbeat : Heartbeat.t :=
  Heartbeat.mk (VNum (Fin 7)) PENDING (VStr "2023-10-01 12:00:00.000")
               (VStr "connect ECONNREFUSED 10.0.0.5:443") VNull
               (VBool false) (VNum (Fin 60)).

(** Outputs of [tailscale ping]: a pong behind a blank line and in front of a
    line that would fail on its own; a pong line cut short of its round-trip
    time; a pong line whose trailing note mentions a timeout. *)
Definition pong_line : string :=
  "pong from hub (100.64.0.2) via DERP(nyc) in 12ms".

Definition pong_output : string :=
  TailscalePing.LF ++ pong_line ++ TailscalePing.LF ++ "ping timed out".

Definition pong_without_time : string := "pong from hub (100.64.0.2)".

Definition pong_mentioning_timeout : string :=
  "pong from hub (100.64.0.2) via DERP(nyc) in 12ms (2 earlier probes timed out)".

Definition timeout_line : string :=
  "ping " ++ JS.dquote ++ "hub" ++ JS.dquote ++ " timed out".

Definition timeout_output : string :=
  TailscalePing.LF ++ TailscalePing.LF ++ timeout_line.

(** A server behind a reverse proxy that forwards IPv4-mapped addresses. *)
Definition proxied_settings (key : string) : JSValue :=
  if String.eqb key "trustProxy" then VBool true
  else if String.eqb key "serverTimezone" then VStr "Europe/Berlin"
  else VNull.

Definition proxied_socket : UptimeKumaServer.Socket :=
  {| UptimeKumaServer.remoteAddress := Some "::ffff:172.17.0.1";
     UptimeKumaServer.headers := fun name =>
       if String.eqb name "x-forwarded-for"
       then VStr "::ffff:203.0.113.9, 172.17.0.1"
       else VUndefined |}.

(** Zones the sample date library can format. *)
Definition known_zone (timezone : JSValue) : bool :=
  match timezone with
  | VStr s => String.eqb s "Europe/Berlin" || String.eqb s "UTC"
  | _ => false
  end.

(** The decimal numeral with digits [ds] (each below ten), most significant
    first, and the integer it denotes. *)
Definition numeral (ds : list nat) : string :=
  fold_right (fun d s => String (ascii_of_nat (48 + d)) s) EmptyString ds.

Definition decimal_value (ds : list nat) : Z :=
  fold_left (fun a d => (a * 10 + Z.of_nat d)%Z) ds 0%Z.

(** What the callback of [runTailscalePing] rejects with when the process
    failed: the error's message first, the error stream second. *)
Definition rejection (r : TailscalePing.ExecResult) : option string :=
  match TailscalePing.error r with
  | Some message => Some ("Execution error: " ++ message)
  | None =>
      if truthy (VStr (TailscalePing.stderr r))
      then Some ("Error in output: " ++ TailscalePing.stderr r)
      else None
  end.

(** A monitor and three child processes: one that prints a pong but also
    complains on its error stream, one that prints the pong only, and one
    whose pong line is cut short. *)
Definition sample_monitor : TailscalePing.Monitor :=
  {| TailscalePing.hostname := "hub"; TailscalePing.interval := 60%float |}.

Definition exec_pong_with_stderr (cmd : string) (options : TailscalePing.ExecOptions)
  : TailscalePing.ExecResult :=
  {| TailscalePing.error := None;
     TailscalePing.stdout := pong_output;
     TailscalePing.stderr := "health check: not logged in" |}.

Definition exec_pong (cmd : string) (options : TailscalePing.ExecOptions)
  : TailscalePing.ExecResult :=
  {| TailscalePing.error := None;
     TailscalePing.stdout := pong_output;
     TailscalePing.stderr := EmptyString |}.

(** The same probe as [sample_heartbeat] as another monitor would have
    recorded it, with another message. *)
Definition other_heartbeat : Heartbeat.t :=
  Heartbeat.mk (VNum (Fin 8)) PENDING (VStr "2023-10-01 12:00:00.000")
               (VStr "getaddrinfo ENOTFOUND db.internal") VNull
               (VBool true) (VNum (Fin 20)).

(** A source of a timezone is usable when it is set and the date library
    can format it. *)
Definition usable (tz_formats : JSValue -> bool) (v : JSValue) : bool :=
  truthy v && tz_formats v.

(** A socket with the address of [proxied_socket] and other headers. *)
Definition spoofing_socket : UptimeKumaServer.Socket :=
  {| UptimeKumaServer.remoteAddress := Some "::ffff:172.17.0.1";
     UptimeKumaServer.headers := fun name =>
       if String.eqb name "x-real-ip" then VStr "127.0.0.1" else VUndefined |}.

Definition direct_settings (key : string) : JSValue :=
  if String.eqb key "trustProxy" then VBool false else VNull.

(** The last element of a list that passes a test: what a sequence of
    keyed assignments leaves under a key. *)
Fixpoint latest {A : Type} (p : A -> bool) (l : list A) : option A :=
  match l with
  | [] => None
  | x :: rest =>
      match latest p rest with
      | Some y => Some y
      | None => if p x then Some x else None
      end
  end.

(** Three maintenance windows as rows [(id, title)], the middle one a later
    revision of the first; a settings store that is a function from keys;
    and a setter that writes to it and never fails. *)
Definition maintenance_rows : list (Z * string) :=
  [ (4%Z, "db upgrade"); (9%Z, "fail-over drill"); (4%Z, "db upgrade (moved)") ].

Definition store_set (key : string) (value : JSValue) (type : string)
                     (store : string -> JSValue)
  : (string -> JSValue) * Completion unit :=
  (fun k => if String.eqb k key then value else store k, Normal tt).

Definition sample_zone : UptimeKumaServerState.Zone (string -> JSValue) :=
  {| UptimeKumaServerState.store := proxied_settings;
     UptimeKumaServerState.env_TZ := None;
     UptimeKumaServerState.tz_default := None |}.

Definition container_env (name : string) : option string :=
  if String.eqb name "UPTIME_KUMA_IS_CONTAINER" then Some "1" else None.

Definition no_nscd (command : string) : Completion unit :=
  Throw (Error "Command failed: sudo service nscd start").

(** The sum of the code units of a list of them. *)
Fixpoint code_total (l : list ascii) : Z :=
  match l with
  | [] => 0%Z
  | c :: rest => (Z.of_nat (nat_of_ascii c) + code_total rest)%Z
  end.

(** A random source that counts up in steps of 37 from 200, and the state
    in which nothing has been drawn yet. *)
Definition counting_source (k : nat) : Init.Byte.byte :=
  match Strings.Byte.of_N (N.of_nat ((k * 37 + 200) mod 256)) with
  | Some b => b
  | None => Init.Byte.x00
  end.

Definition nothing_drawn : Util.Drawn :=
  {| Util.used := 0; Util.console := [] |}.

(** The variables of the sizing loop as [getCryptoRandomInt] sets them up. *)
Definition sizing_start (range : Z) : Util.Sizing :=
  {| Util.tmpRange := range; Util.bitsNeeded := 0;
     Util.bytesNeeded := 0; Util.mask := 1 |}.

(** The index [genSecret] gets out of one random byte: the byte under the
    mask the sizing loop computes for the 62 characters. *)
Definition secret_index (byte : Z) : Z :=
  match Util.sizing 33 (sizing_start (Z.of_nat (String.length Util.chars) - 1)) with
  | Some w => Util.band (Util.assemble [byte] 0 0) (Util.mask w)
  | None => (-1)%Z
  end.

(** The 256 values of a byte. *)
Definition all_bytes : list Z := map Z.of_nat (seq 0 256).

(** Every code unit of [s] is one of the code units of [alphabet]. *)
Definition drawn_from (alphabet s : string) : Prop :=
  Forall (fun c => In c (list_ascii_of_string alphabet)) (list_ascii_of_string s).

(** A printer for Numbers beyond 2^53 that the examples never reach. *)
Definition large_printer (z : Z) : string := "9.007199254740993e+15".

(* ------------------------------------------------------------------ *)
(** ** Facts about the string operations *)

Module JSFacts.

Lemma append_empty_r (s : string) : s ++ EmptyString = s.
Proof. induction s as [|c s IH]; simpl; [reflexivity | now rewrite IH]. Qed.

Lemma append_assoc (a b c : string) : (a ++ b) ++ c = a ++ (b ++ c).
Proof. induction a as [|x a IH]; simpl; [reflexivity | now rewrite IH]. Qed.

Lemma prefix_empty (c : ascii) (sep : string) :
  prefix (String c sep) EmptyString = false.
Proof. reflexivity. Qed.

(** A pending skip of [k] code units is the same as dropping them. *)
Lemma split_go_skip (sep : string) (k : nat) :
  forall s cur, split_go sep s k cur = split_go sep (drop k s) 0 cur.
Proof.
  induction k as [|k IH]; intros s cur.
  - reflexivity.
  - destruct s as [|c s]; simpl; [reflexivity | apply IH].
Qed.

(** One step of the pass, seen from outside: the piece in front of the
    first separator, then the pass over what follows it. *)
Lemma split_go_unfold (c0 : ascii) (sep0 : string) :
  let sep := String c0 sep0 in
  forall s cur,
    split_go sep s 0 cur =
    (cur ++ before sep s) ::
    match after sep s with
    | None => []
    | Some r => split_go sep r 0 EmptyString
    end.
Proof.
  intros sep s. induction s as [|c s IH]; intros cur.
  - simpl. now rewrite append_empty_r.
  - cbn [split_go before after].
    destruct (prefix sep (String c s)) eqn:P.
    + rewrite append_empty_r. f_equal.
      rewrite split_go_skip. unfold sep. cbn [length].
      now rewrite Nat.sub_succ, Nat.sub_0_r.
    + rewrite IH, append_assoc. reflexivity.
Qed.

Lemma split_unfold (c0 : ascii) (sep0 s : string) :
  let sep := String c0 sep0 in
  split sep s =
  before sep s ::
  match after sep s with
  | None => []
  | Some r => split sep r
  end.
Proof.
  intros sep. unfold split, sep. now rewrite split_go_unfold.
Qed.

Lemma index_0_split (c0 : ascii) (sep0 s : string) :
  let sep := String c0 sep0 in
  index (split sep s) 0 = Some (before sep s).
Proof. intros sep. unfold sep. now rewrite split_unfold. Qed.

Lemma index_1_split (c0 : ascii) (sep0 s : string) :
  let sep := String c0 sep0 in
  index (split sep s) 1 = option_map (before sep) (after sep s).
Proof.
  intros sep. unfold sep. rewrite split_unfold.
  destruct (after (String c0 sep0) s) as [r|]; [|reflexivity].
  rewrite split_unfold. reflexivity.
Qed.

Lemma after_includes (sep s : string) :
  includes sep s = match after sep s with Some _ => true | None => false end.
Proof.
  induction s as [|c s IH]; cbn [includes after].
  - destruct (prefix sep EmptyString); reflexivity.
  - destruct (prefix sep (String c s)); [reflexivity | exact IH].
Qed.

(** The separator really stands between the two parts. *)
Lemma prefix_drop (p s : string) :
  prefix p s = true -> s = p ++ drop (length p) s.
Proof.
  revert s. induction p as [|a p IH]; intros s H.
  - reflexivity.
  - destruct s as [|b s]; [discriminate|]. simpl in H |- *.
    destruct (ascii_dec a b) as [->|]; [|discriminate].
    f_equal. now apply IH.
Qed.

Lemma before_after (sep s r : string) :
  after sep s = Some r -> s = before sep s ++ sep ++ r.
Proof.
  induction s as [|c s IH]; cbn [before after].
  - destruct (prefix sep EmptyString) eqn:P; [|discriminate].
    intros [= <-]. now apply prefix_drop.
  - destruct (prefix sep (String c s)) eqn:P.
    + intros [= <-]. now apply prefix_drop.
    + intros H. simpl. f_equal. now apply IH.
Qed.

Lemma before_is_prefix (sep s : string) :
  exists r, s = before sep s ++ r.
Proof.
  induction s as [|c s [r IH]]; cbn [before].
  - exists EmptyString. now destruct (prefix sep EmptyString).
  - destruct (prefix sep (String c s)).
    + now exists (String c s).
    + exists r. simpl. now f_equal.
Qed.

Lemma prefix_append (p a r : string) :
  prefix p a = true -> prefix p (a ++ r) = true.
Proof.
  revert a. induction p as [|x p IH]; intros a H;
    [now destruct (a ++ r)|].
  destruct a as [|y a]; [discriminate|]. simpl in H |- *.
  destruct (ascii_dec x y); [now apply IH | discriminate].
Qed.

(** No occurrence of [sep] starts inside the text in front of the first
    one. *)
Lemma before_first (sep s : string) :
  sep <> EmptyString -> includes sep (before sep s) = false.
Proof.
  intros Hsep. induction s as [|c s IH]; cbn [before].
  - destruct sep; [congruence | reflexivity].
  - destruct (prefix sep (String c s)) eqn:P.
    + destruct sep; [congruence | reflexivity].
    + cbn [includes]. rewrite IH, orb_false_r.
      destruct (prefix sep (String c (before sep s))) eqn:Q; [|reflexivity].
      destruct (before_is_prefix sep s) as [r Hr].
      apply (prefix_append _ _ r) in Q.
      change (String c (before sep s) ++ r) with (String c (before sep s ++ r)) in Q.
      rewrite <- Hr in Q. congruence.
Qed.

Lemma prefix_nil (s : string) : prefix EmptyString s = true.
Proof. now destruct s. Qed.

Lemma before_at_separator (c : ascii) (s : string) :
  before (String c EmptyString) (String c s) = EmptyString.
Proof.
  cbn [before prefix]. destruct (ascii_dec c c) as [_|n]; [|now elim n].
  now rewrite prefix_nil.
Qed.

Lemma starts_with_space (s : string) :
  prefix " " s = true -> exists r, s = String " "%char r.
Proof.
  destruct s as [|b s]; [discriminate|]. cbn [prefix].
  destruct (ascii_dec " " b) as [<-|]; [eauto | discriminate].
Qed.

Lemma no_space_head (c : ascii) (t : string) :
  prefix " " (String c t) = false -> c <> " "%char.
Proof.
  cbn [prefix]. destruct (ascii_dec " " c) as [<-|n].
  - destruct t; discriminate.
  - intros _ E. apply n. now symmetry.
Qed.

Lemma prefix_other_head (c : ascii) (p s : string) :
  c <> " "%char -> prefix (String " "%char p) (String c s) = false.
Proof.
  intros n. cbn [prefix]. destruct (ascii_dec " " c) as [E|]; [|reflexivity].
  now elim n.
Qed.

(** The round-trip time token: behind the first occurrence of the
    separator, up to the next space or the end of the line. *)
Lemma time_token (tok rest : string) :
  includes " " tok = false ->
  rest = EmptyString \/ prefix " " rest = true ->
  before " " (before " in " (tok ++ rest)) = tok.
Proof.
  induction tok as [|c tok IH]; intros Htok Hrest.
  - cbn [append]. destruct Hrest as [->|Hrest]; [reflexivity|].
    apply starts_with_space in Hrest as [r ->].
    cbn [before]. destruct (prefix " in " (String " " r));
      [reflexivity | apply before_at_separator].
  - cbn [includes] in Htok. apply orb_false_iff in Htok as [Hc Htok].
    specialize (IH Htok Hrest). apply no_space_head in Hc.
    change (String c tok ++ rest) with (String c (tok ++ rest)).
    cbn [before]. rewrite (prefix_other_head c _ _ Hc).
    cbn [before]. rewrite (prefix_other_head c _ _ Hc).
    now rewrite IH.
Qed.

(** *** [parseInt] on a decimal numeral followed by a unit *)

Lemma digit_cases (d : nat) :
  (d < 10)%nat ->
  d = 0%nat \/ d = 1%nat \/ d = 2%nat \/ d = 3%nat \/ d = 4%nat \/
  d = 5%nat \/ d = 6%nat \/ d = 7%nat \/ d = 8%nat \/ d = 9%nat.
Proof. lia. Qed.

Ltac each_digit H :=
  apply digit_cases in H;
  repeat (destruct H as [H|H]); subst.

Lemma digitValue_digit (d : nat) :
  (d < 10)%nat -> digitValue (ascii_of_nat (48 + d)) = Some (Z.of_nat d).
Proof. intros H. each_digit H; reflexivity. Qed.

Lemma digits_numeral (r : string) (ds : list nat) :
  Forall (fun d => (d < 10)%nat) ds ->
  forall acc,
    digits 10 (numeral ds ++ "ms" ++ r) acc =
    match ds with
    | [] => acc
    | _ => Some (fold_left (fun a d => (a * 10 + Z.of_nat d)%Z) ds
                           (match acc with None => 0%Z | Some a => a end))
    end.
Proof.
  induction 1 as [|d ds Hd Hds IH]; intros acc.
  - reflexivity.
  - cbn [numeral fold_right append digits].
    rewrite (digitValue_digit d Hd).
    replace (Z.of_nat d <? 10)%Z with true by (symmetry; apply Z.ltb_lt; lia).
    fold (numeral ds). rewrite IH. cbn [fold_left].
    destruct acc as [a|]; destruct ds; reflexivity.
Qed.

(** A numeral has no white space, sign or hexadecimal prefix for
    [parseInt] to take off. *)
Lemma parseInt_numeral_plain (d : nat) (ds : list nat) (r : string) :
  Forall (fun d => (d < 10)%nat) (d :: ds) ->
  parseInt (numeral (d :: ds) ++ "ms" ++ r) =
  match digits 10 (numeral (d :: ds) ++ "ms" ++ r) None with
  | None => NaN
  | Some m => Fin (1 * m)
  end.
Proof.
  intros HF. inversion HF as [|? ? Hd Hds]; subst.
  each_digit Hd; try reflexivity.
  destruct Hds as [|d2 ds Hd2 _]; [reflexivity|].
  each_digit Hd2; reflexivity.
Qed.

Lemma parseInt_numeral_ms (ds : list nat) (r : string) :
  ds <> [] ->
  Forall (fun d => (d < 10)%nat) ds ->
  parseInt (numeral ds ++ "ms" ++ r) = Fin (decimal_value ds).
Proof.
  intros Hne HF. destruct ds as [|d ds]; [congruence|].
  rewrite (parseInt_numeral_plain d ds r HF), (digits_numeral r _ HF).
  unfold decimal_value. now rewrite Z.mul_1_l.
Qed.

End JSFacts.

(* ------------------------------------------------------------------ *)
(** ** Facts about the output parser *)

Module TailscaleFacts.
Import TailscalePing JSFacts.

Lemma body_blank (h : Heartbeat.t) : body EmptyString h = (h, Normal Next).
Proof. reflexivity. Qed.

Lemma body_pong (line : string) (h : Heartbeat.t) :
  includes "pong from" line = true ->
  body line h =
  match index (split " in " line) 1 with
  | None => (Heartbeat.set_status UP h, Throw (undefined_read "split"))
  | Some seg =>
      (Heartbeat.set_msg (VStr line)
         (Heartbeat.set_ping (VNum (parseInt_opt (index (split " " seg) 0)))
            (Heartbeat.set_status UP h)),
       Normal Break)
  end.
Proof.
  intros H. unfold body. rewrite H. unfold bind, assign, receiver.
  destruct (index (split " in " line) 1); reflexivity.
Qed.

Lemma body_fail (line : string) (h : Heartbeat.t) :
  includes "pong from" line = false ->
  line <> EmptyString ->
  body line h = (h, Throw (failure_of line)).
Proof.
  intros H Hne. unfold body, failure_of. rewrite H.
  destruct (includes "timed out" line); [reflexivity|].
  destruct (includes "no matching peer" line); [reflexivity|].
  destruct (includes "is local Tailscale IP" line); [reflexivity|].
  destruct (String.eqb_spec line EmptyString); [contradiction | reflexivity].
Qed.

Lemma first_decisive_nonblank (lines : list string) (line : string) :
  first_decisive lines = Some line -> line <> EmptyString.
Proof.
  intros H. apply find_some in H as [_ H].
  intros ->. discriminate.
Qed.

(** The loop is decided by the first non-blank line alone. *)
Lemma for_of_decisive (lines : list string) (h : Heartbeat.t) :
  for_of lines h =
  match first_decisive lines with
  | None => (h, Normal tt)
  | Some line =>
      match body line h with
      | (h', Normal _) => (h', Normal tt)
      | (h', Throw e) => (h', Throw e)
      end
  end.
Proof.
  induction lines as [|line rest IH]; [reflexivity|].
  cbn [for_of first_decisive find].
  destruct (String.eqb_spec line EmptyString) as [->|Hne]; cbn [negb].
  - unfold bind. rewrite body_blank. exact IH.
  - unfold bind. destruct (includes "pong from" line) eqn:P.
    + rewrite (body_pong line h P).
      destruct (index (split " in " line) 1); reflexivity.
    + rewrite (body_fail line h P Hne). reflexivity.
Qed.

Lemma first_decisive_after_blanks (n : nat) (line : string) (later : list string) :
  line <> EmptyString ->
  first_decisive (repeat EmptyString n ++ line :: later)%list = Some line.
Proof.
  intros Hne. induction n as [|n IH]; cbn [repeat app first_decisive find].
  - now destruct (String.eqb_spec line EmptyString).
  - exact IH.
Qed.

Lemma first_decisive_all_blank (lines : list string) :
  Forall (fun line => line = EmptyString) lines ->
  first_decisive lines = None.
Proof.
  induction 1 as [|line rest -> _ IH]; [reflexivity | exact IH].
Qed.

Lemma includes_nonblank (pat line : string) :
  pat <> EmptyString -> includes pat line = true -> line <> EmptyString.
Proof.
  intros Hp H ->. destruct pat; [congruence | discriminate].
Qed.

(** The verdict at a pong line that carries the round-trip separator. *)
Lemma parse_pong (stdout line tok rest : string) (h : Heartbeat.t) :
  first_decisive (split LF stdout) = Some line ->
  includes "pong from" line = true ->
  after " in " line = Some (tok ++ rest) ->
  includes " " tok = false ->
  rest = EmptyString \/ prefix " " rest = true ->
  parseTailscaleOutput stdout h =
  (Heartbeat.set_msg (VStr line)
     (Heartbeat.set_ping (VNum (parseInt tok))
        (Heartbeat.set_status UP h)),
   Normal tt).
Proof.
  intros Hfirst Hpong Hafter Htok Hrest.
  unfold parseTailscaleOutput.
  rewrite for_of_decisive, Hfirst, (body_pong line h Hpong).
  rewrite (index_1_split " "%char "in " line), Hafter. cbn [option_map].
  rewrite (index_0_split " "%char EmptyString).
  rewrite (time_token tok rest Htok Hrest).
  reflexivity.
Qed.

End TailscaleFacts.

(* ------------------------------------------------------------------ *)
(** ** The output parser: verdicts *)

Import TailscalePing TailscaleFacts JSFacts.

(** C1, as stated, fails: a first non-blank line that contains the pong
    marker but no round-trip separator sets the status to UP and then throws
    a TypeError, so neither ping nor msg is set. *)
Lemma C1_counterexample_pong_without_separator :
  first_decisive (split LF pong_without_time) = Some pong_without_time /\
  includes "pong from" pong_without_time = true /\
  parseTailscaleOutput pong_without_time sample_heartbeat =
    (Heartbeat.set_status UP sample_heartbeat, Throw (undefined_read "split")) /\
  Heartbeat.msg (fst (parseTailscaleOutput pong_without_time sample_heartbeat))
    <> VStr pong_without_time.
Proof.
  repeat split; try reflexivity.
  vm_compute. discriminate.
Qed.

(** C1, amended: when the first non-blank line of the output contains the
    pong marker and the round-trip separator, with [tok] the text behind the
    first separator up to the next space or the end of the line, the parser
    sets status to UP, ping to [parseInt tok] and msg to the whole line, and
    returns normally whatever the later lines are. *)
Theorem C1_pong_sets_up_ping_msg :
  forall (stdout : string) (blanks : nat) (line : string) (later : list string)
         (tok rest : string) (h : Heartbeat.t),
    split LF stdout = (repeat EmptyString blanks ++ line :: later)%list ->
    includes "pong from" line = true ->
    after " in " line = Some (tok ++ rest) ->
    includes " " tok = false ->
    rest = EmptyString \/ prefix " " rest = true ->
    parseTailscaleOutput stdout h =
    (Heartbeat.set_msg (VStr line)
       (Heartbeat.set_ping (VNum (parseInt tok))
          (Heartbeat.set_status UP h)),
     Normal tt).
Proof.
  intros stdout blanks line later tok rest h Hsplit Hpong Hafter Htok Hrest.
  apply parse_pong with (rest := rest); try assumption.
  rewrite Hsplit. apply first_decisive_after_blanks.
  apply (includes_nonblank "pong from"); [discriminate | exact Hpong].
Qed.

Lemma C1_witness_pong_output :
  split LF pong_output = (repeat EmptyString 1 ++ pong_line :: ["ping timed out"])%list /\
  parseTailscaleOutput pong_output sample_heartbeat =
    (Heartbeat.set_msg (VStr pong_line)
       (Heartbeat.set_ping (VNum (Fin 12))
          (Heartbeat.set_status UP sample_heartbeat)),
     Normal tt).
Proof.
  split; [reflexivity|].
  apply (C1_pong_sets_up_ping_msg pong_output 1 pong_line ["ping timed out"]
           "12ms" EmptyString sample_heartbeat);
    [reflexivity | reflexivity | reflexivity | reflexivity | left; reflexivity].
Defined.

(** The case the spec's test names: a first non-blank line of the shape
    [pong from ... in <N>ms ...] yields ping exactly N. *)
Corollary pong_numeral_ping :
  forall (stdout : string) (blanks : nat) (line : string) (later : list string)
         (ds : list nat) (rest : string) (h : Heartbeat.t),
    split LF stdout = (repeat EmptyString blanks ++ line :: later)%list ->
    includes "pong from" line = true ->
    after " in " line = Some ((numeral ds ++ "ms") ++ rest) ->
    ds <> [] ->
    Forall (fun d => (d < 10)%nat) ds ->
    rest = EmptyString \/ prefix " " rest = true ->
    parseTailscaleOutput stdout h =
    (Heartbeat.set_msg (VStr line)
       (Heartbeat.set_ping (VNum (Fin (decimal_value ds)))
          (Heartbeat.set_status UP h)),
     Normal tt).
Proof.
  intros stdout blanks line later ds rest h Hsplit Hpong Hafter Hne HF Hrest.
  assert (Htok : includes " " (numeral ds ++ "ms") = false).
  { clear -HF. induction HF as [|d ds Hd _ IH]; [reflexivity|].
    cbn [numeral fold_right append includes]. fold (numeral ds).
    rewrite IH, orb_false_r. each_digit Hd; apply prefix_other_head; discriminate. }
  assert (Hfirst : first_decisive (split LF stdout) = Some line).
  { rewrite Hsplit. apply first_decisive_after_blanks.
    apply (includes_nonblank "pong from"); [discriminate | exact Hpong]. }
  rewrite (parse_pong stdout line _ rest h Hfirst Hpong Hafter Htok Hrest).
  replace (numeral ds ++ "ms") with (numeral ds ++ "ms" ++ EmptyString)
    by reflexivity.
  now rewrite (parseInt_numeral_ms ds EmptyString Hne HF).
Qed.

(** C2, as stated, fails: a failure can be raised with the heartbeat
    already written to.  At a first non-blank line with the pong marker and
    no round-trip separator the status is set to UP, then the TypeError is
    thrown: the caller gets a failure and a heartbeat that is no longer the
    one it passed in. *)
Lemma C2_counterexample_failure_after_status_write :
  first_decisive (split LF pong_without_time) = Some pong_without_time /\
  snd (parseTailscaleOutput pong_without_time sample_heartbeat)
    = Throw (undefined_read "split") /\
  fst (parseTailscaleOutput pong_without_time sample_heartbeat)
    <> sample_heartbeat /\
  Heartbeat.status sample_heartbeat = PENDING /\
  Heartbeat.status (fst (parseTailscaleOutput pong_without_time sample_heartbeat))
    = UP.
Proof.
  split; [reflexivity|]. split; [reflexivity|]. split; [|split; reflexivity].
  vm_compute. discriminate.
Qed.

(** C2, amended: whenever the loop ends in one of its four failure branches
    (the first non-blank line does not contain the pong marker), the failure
    is thrown and the heartbeat is handed back exactly as it came in; a
    heartbeat that does come back changed comes from the pong branch, and the
    only status the parser ever writes is UP, never DOWN. *)
Theorem C2_failure_leaves_heartbeat_untouched :
  forall (stdout : string) (h : Heartbeat.t),
    let h' := fst (parseTailscaleOutput stdout h) in
    (forall line,
        first_decisive (split LF stdout) = Some line ->
        includes "pong from" line = false ->
        parseTailscaleOutput stdout h = (h, Throw (failure_of line))) /\
    (h' <> h ->
     exists line,
       first_decisive (split LF stdout) = Some line /\
       includes "pong from" line = true) /\
    (Heartbeat.status h' = Heartbeat.status h \/ Heartbeat.status h' = UP) /\
    (Heartbeat.status h <> DOWN -> Heartbeat.status h' <> DOWN).
Proof.
  intros stdout h h'.
  assert (Hcases :
    h' = h \/
    exists line,
      first_decisive (split LF stdout) = Some line /\
      includes "pong from" line = true /\ Heartbeat.status h' = UP).
  { subst h'. unfold parseTailscaleOutput. rewrite for_of_decisive.
    destruct (first_decisive (split LF stdout)) as [line|] eqn:Hfirst;
      [|now left].
    pose proof (first_decisive_nonblank _ _ Hfirst) as Hne.
    destruct (includes "pong from" line) eqn:Hpong.
    - right. exists line. split; [reflexivity|]. split; [exact Hpong|].
      rewrite (body_pong line h Hpong).
      destruct (index (split " in " line) 1); reflexivity.
    - left. now rewrite (body_fail line h Hpong Hne). }
  repeat split.
  - intros line Hfirst Hpong. unfold parseTailscaleOutput.
    rewrite for_of_decisive, Hfirst.
    now rewrite (body_fail line h Hpong (first_decisive_nonblank _ _ Hfirst)).
  - intros Hchanged. destruct Hcases as [E | (line & Hfirst & Hpong & _)];
      [contradiction | eauto].
  - destruct Hcases as [-> | (line & _ & _ & Hup)]; [now left | now right].
  - intros Hdown. destruct Hcases as [-> | (line & _ & _ & Hup)];
      [exact Hdown | rewrite Hup; discriminate].
Qed.

Lemma C2_witness_timeout_output :
  parseTailscaleOutput timeout_output sample_heartbeat =
  (sample_heartbeat,
   Throw (Error ("Ping timed out: " ++ quoted timeout_line))).
Proof.
  apply (proj1 (C2_failure_leaves_heartbeat_untouched timeout_output
                  sample_heartbeat)
           timeout_line); reflexivity.
Defined.

(** C3, as stated, fails: the markers are tried in a fixed order, so a first
    non-blank line that contains [timed out] behind the pong marker is a
    success, not a Timeout. *)
Lemma C3_counterexample_pong_before_timeout :
  first_decisive (split LF pong_mentioning_timeout) = Some pong_mentioning_timeout /\
  includes "timed out" pong_mentioning_timeout = true /\
  snd (parseTailscaleOutput pong_mentioning_timeout sample_heartbeat) = Normal tt /\
  parseTailscaleOutput pong_mentioning_timeout sample_heartbeat
    <> (sample_heartbeat, Throw (Timeout pong_mentioning_timeout)).
Proof.
  repeat split; try reflexivity.
  vm_compute. discriminate.
Qed.

(** C3, amended: with only blank lines in front of it, a first non-blank
    line without the pong marker raises Timeout when it contains
    [timed out]; otherwise PeerUnreachable when it contains
    [no matching peer]; otherwise SelfTargetInvalid when it contains the
    local-IP phrase; otherwise UnexpectedOutput.  Each failure carries the
    line verbatim, the blank lines raise nothing and the heartbeat is not
    touched. *)
Theorem C3_first_marker_decides_failure :
  forall (stdout : string) (blanks : nat) (line : string) (later : list string)
         (h : Heartbeat.t),
    split LF stdout = (repeat EmptyString blanks ++ line :: later)%list ->
    line <> EmptyString ->
    includes "pong from" line = false ->
    (includes "timed out" line = true ->
     parseTailscaleOutput stdout h =
       (h, Throw (Error ("Ping timed out: " ++ quoted line)))) /\
    (includes "timed out" line = false ->
     includes "no matching peer" line = true ->
     parseTailscaleOutput stdout h =
       (h, Throw (Error ("Nonexistant or inaccessible due to ACLs: " ++ quoted line)))) /\
    (includes "timed out" line = false ->
     includes "no matching peer" line = false ->
     includes "is local Tailscale IP" line = true ->
     parseTailscaleOutput stdout h =
       (h, Throw (Error ("Tailscale only works if used on other machines: "
                         ++ quoted line)))) /\
    (includes "timed out" line = false ->
     includes "no matching peer" line = false ->
     includes "is local Tailscale IP" line = false ->
     parseTailscaleOutput stdout h =
       (h, Throw (Error ("Unexpected output: " ++ quoted line)))).
Proof.
  intros stdout blanks line later h Hsplit Hne Hpong.
  assert (E : parseTailscaleOutput stdout h = (h, Throw (failure_of line))).
  { unfold parseTailscaleOutput.
    rewrite Hsplit, for_of_decisive, (first_decisive_after_blanks _ _ _ Hne).
    now rewrite (body_fail line h Hpong Hne). }
  rewrite E. unfold failure_of.
  repeat split.
  - now intros ->.
  - now intros -> ->.
  - now intros -> -> ->.
  - now intros -> -> ->.
Qed.

Lemma C3_witness_timeout_behind_blanks :
  split LF timeout_output =
    (repeat EmptyString 2 ++
     [timeout_line])%list /\
  parseTailscaleOutput timeout_output sample_heartbeat =
    (sample_heartbeat,
     Throw (Timeout timeout_line)).
Proof.
  split; [reflexivity|].
  apply (C3_first_marker_decides_failure timeout_output 2 _ [] sample_heartbeat);
    [reflexivity | discriminate | reflexivity | reflexivity].
Defined.

(** C6: an output whose lines are all blank (the empty output among them)
    makes the parser return normally with the heartbeat exactly as the caller
    handed it in. *)
Theorem C6_blank_output_returns_untouched :
  forall (stdout : string) (h : Heartbeat.t),
    Forall (fun line => line = EmptyString) (split LF stdout) ->
    parseTailscaleOutput stdout h = (h, Normal tt).
Proof.
  intros stdout h Hblank. unfold parseTailscaleOutput.
  now rewrite for_of_decisive, (first_decisive_all_blank _ Hblank).
Qed.

Lemma C6_witness_blank_lines :
  Forall (fun line => line = EmptyString) (split LF (LF ++ LF)) /\
  parseTailscaleOutput (LF ++ LF) sample_heartbeat = (sample_heartbeat, Normal tt) /\
  parseTailscaleOutput EmptyString sample_heartbeat = (sample_heartbeat, Normal tt).
Proof.
  assert (H2 : Forall (fun line => line = EmptyString) (split LF (LF ++ LF))).
  { repeat constructor. }
  assert (H0 : Forall (fun line => line = EmptyString) (split LF EmptyString)).
  { repeat constructor. }
  exact (conj H2
          (conj (C6_blank_output_returns_untouched (LF ++ LF) sample_heartbeat H2)
                (C6_blank_output_returns_untouched EmptyString sample_heartbeat H0))).
Defined.

(** C10: the pong branch is partial.  Some line contains the pong marker
    but not the round-trip separator; at such a first non-blank line the
    parser writes status UP and then stops with the TypeError of reading
    [split] off [undefined]; and when the line does contain the separator the
    parser returns normally. *)
Theorem C10_pong_branch_partial :
  (exists line,
      includes "pong from" line = true /\ includes " in " line = false) /\
  (forall (stdout line : string) (h : Heartbeat.t),
      first_decisive (split LF stdout) = Some line ->
      includes "pong from" line = true ->
      (includes " in " line = false ->
       parseTailscaleOutput stdout h =
         (Heartbeat.set_status UP h, Throw (undefined_read "split"))) /\
      (includes " in " line = true ->
       snd (parseTailscaleOutput stdout h) = Normal tt)).
Proof.
  split.
  - exists pong_without_time. split; reflexivity.
  - intros stdout line h Hfirst Hpong.
    unfold parseTailscaleOutput.
    rewrite for_of_decisive, Hfirst, (body_pong line h Hpong).
    rewrite (index_1_split " "%char "in " line), (after_includes " in " line).
    destruct (after " in " line); split; intros; try discriminate; reflexivity.
Qed.

Lemma C10_witness_pong_without_separator :
  parseTailscaleOutput pong_without_time sample_heartbeat =
    (Heartbeat.set_status UP sample_heartbeat,
     Throw (TypeError "Cannot read properties of undefined (reading 'split')")) /\
  snd (parseTailscaleOutput pong_output sample_heartbeat) = Normal tt.
Proof.
  split.
  - apply (proj2 C10_pong_branch_partial pong_without_time pong_without_time
             sample_heartbeat); reflexivity.
  - apply (proj2 C10_pong_branch_partial pong_output pong_line
             sample_heartbeat); reflexivity.
Defined.

(* ------------------------------------------------------------------ *)
(** ** The heartbeat's two views *)

(** C4, as stated, fails: the public view is not the full view with msg
    blanked, it has no monitorID (nor important, nor duration). *)
Lemma C4_counterexample_public_view_lacks_fields :
  ~ Heartbeat.same_object (Heartbeat.toPublicJSON sample_heartbeat)
                          (Heartbeat.full_with_blank_msg sample_heartbeat) /\
  Heartbeat.get "monitorID" (Heartbeat.toPublicJSON sample_heartbeat) = None /\
  Heartbeat.get "monitorID" (Heartbeat.toJSON sample_heartbeat) = Some (VNum (Fin 7)).
Proof.
  split; [|split; reflexivity].
  intros H. specialize (H "monitorID"). discriminate H.
Qed.

(** C4, amended: the public view has exactly the fields status, time, msg
    and ping, in that order; status, time and ping are those of the full
    view, msg is the empty string, and monitorID, important and duration are
    absent.  Put differently, it is the full view with msg blanked, cut down
    to these four fields. *)
Theorem C4_public_view_is_four_fields :
  forall this : Heartbeat.t,
    Heartbeat.keys (Heartbeat.toPublicJSON this) = ["status"; "time"; "msg"; "ping"] /\
    Heartbeat.get "status" (Heartbeat.toPublicJSON this)
      = Heartbeat.get "status" (Heartbeat.toJSON this) /\
    Heartbeat.get "time" (Heartbeat.toPublicJSON this)
      = Heartbeat.get "time" (Heartbeat.toJSON this) /\
    Heartbeat.get "ping" (Heartbeat.toPublicJSON this)
      = Heartbeat.get "ping" (Heartbeat.toJSON this) /\
    Heartbeat.get "msg" (Heartbeat.toPublicJSON this) = Some (VStr EmptyString) /\
    Heartbeat.get "monitorID" (Heartbeat.toPublicJSON this) = None /\
    Heartbeat.get "important" (Heartbeat.toPublicJSON this) = None /\
    Heartbeat.get "duration" (Heartbeat.toPublicJSON this) = None /\
    Heartbeat.toPublicJSON this =
      filter (fun kv => existsb (String.eqb (fst kv)) ["status"; "time"; "msg"; "ping"])
             (Heartbeat.full_with_blank_msg this).
Proof. intros this. repeat split. Qed.

(** C5: whatever message a heartbeat stores, the public view's msg is the
    empty string and the full view's msg is the stored message. *)
Theorem C5_public_msg_blank_full_msg_verbatim :
  forall this : Heartbeat.t,
    Heartbeat.get "msg" (Heartbeat.toPublicJSON this) = Some (VStr EmptyString) /\
    Heartbeat.get "msg" (Heartbeat.toJSON this) = Some (Heartbeat.msg this).
Proof. intros this. split; reflexivity. Qed.

(* ------------------------------------------------------------------ *)
(** ** The child process's timeout *)

(** C7: whatever [exec] does, [runTailscalePing] calls it once, with the
    command line for the host and the timeout [interval * 1000 * 0.8]
    computed in binary64; for an interval of 10 seconds that timeout is
    exactly 8000 ms. *)
Theorem C7_exec_timeout :
  forall (exec : string -> ExecOptions -> ExecResult) (hostname : string),
    (forall interval : float,
        snd (runTailscalePing exec hostname interval) =
        settle (exec ("tailscale ping " ++ hostname)
                     {| timeout := (interval * 1000 * ratio)%float |})) /\
    snd (runTailscalePing exec hostname 10%float) =
      settle (exec ("tailscale ping " ++ hostname) {| timeout := 8000%float |}).
Proof. intros exec hostname. split; reflexivity. Qed.

(* ------------------------------------------------------------------ *)
(** ** The server: timezone and client address *)

Import UptimeKumaServer.



(** C9, as stated, fails: with the trust-proxy setting on, an address taken
    from the forwarded-for header is returned with its IPv4-mapped prefix
    still on. *)
Lemma C9_counterexample_forwarded_keeps_prefix :
  getClientIP proxied_settings proxied_socket = Normal (VStr "::ffff:203.0.113.9") /\
  stripped_in_all_cases proxied_settings proxied_socket = VStr "203.0.113.9" /\
  getClientIP proxied_settings proxied_socket
    <> Normal (stripped_in_all_cases proxied_settings proxied_socket).
Proof.
  split; [reflexivity|]. split; [reflexivity|].
  vm_compute. discriminate.
Qed.

(** C9, amended: [getClientIP] never throws, and strips the IPv4-mapped
    prefix from the socket's own address whenever that is the address it
    returns: always with the trust-proxy setting off, and with it on when
    neither header yields a value.  An address taken from the forwarded-for
    header (first entry, trimmed) or from the real-ip header is returned as
    the header has it. *)
Theorem C9_prefix_stripped_from_own_address_only :
  forall (Settings_get : string -> JSValue) (socket : Socket),
    let own := VStr (replace_prefix "::ffff:" (own_address socket)) in
    getClientIP Settings_get socket =
    Normal
      (if truthy (Settings_get "trustProxy") then
         if truthy (forwarded_first socket) then forwarded_first socket
         else if truthy (headers socket "x-real-ip")
              then headers socket "x-real-ip"
              else own
       else own).
Proof.
  intros Settings_get socket own.
  unfold getClientIP, forwarded_first. fold (own_address socket). fold own.
  destruct (truthy (Settings_get "trustProxy")); [|reflexivity].
  destruct (headers socket "x-forwarded-for") as [| | b | n | s | xs];
    try reflexivity.
  rewrite (index_0_split ","%char EmptyString s).
  unfold or_else.
  destruct (truthy (VStr (trim (before "," s)))) eqn:E;
    cbv iota; rewrite ?E; reflexivity.
Qed.

(* ------------------------------------------------------------------ *)
(** ** Further properties of the checker *)

Module CheckFacts.
Import TailscalePing TailscaleFacts JSFacts.

Lemma settle_rejection (r : ExecResult) :
  settle r = match rejection r with
             | Some reason => Rejected reason
             | None => Resolved (stdout r)
             end.
Proof.
  unfold settle, rejection. destruct (error r); [reflexivity|].
  destruct (truthy (VStr (stderr r))); reflexivity.
Qed.

(** The heartbeat the parser hands back, case by case. *)
Lemma parse_cases (out : string) (h : Heartbeat.t) :
  match first_decisive (split LF out) with
  | None => parseTailscaleOutput out h = (h, Normal tt)
  | Some line =>
      if includes "pong from" line then
        match after " in " line with
        | None =>
            parseTailscaleOutput out h =
            (Heartbeat.set_status UP h, Throw (undefined_read "split"))
        | Some r =>
            parseTailscaleOutput out h =
            (Heartbeat.set_msg (VStr line)
               (Heartbeat.set_ping
                  (VNum (parseInt (before " " (before " in " r))))
                  (Heartbeat.set_status UP h)),
             Normal tt)
        end
      else parseTailscaleOutput out h = (h, Throw (failure_of line))
  end.
Proof.
  unfold parseTailscaleOutput. rewrite for_of_decisive.
  destruct (first_decisive (split LF out)) as [line|] eqn:Hfirst;
    [|reflexivity].
  destruct (includes "pong from" line) eqn:Hpong.
  - rewrite (body_pong line h Hpong), (index_1_split " "%char "in " line).
    destruct (after " in " line) as [r|]; [|reflexivity].
    cbn [option_map]. now rewrite (index_0_split " "%char EmptyString).
  - now rewrite (body_fail line h Hpong (first_decisive_nonblank _ _ Hfirst)).
Qed.

End CheckFacts.

Import CheckFacts.

(** X1: whatever the child process did and printed, a failure of [check]
    is an [Error] whose message starts with the checker's prefix; the
    TypeError of a pong line without round-trip time is wrapped too. *)
Theorem check_failures_are_wrapped :
  forall (exec : string -> ExecOptions -> ExecResult) (monitor : Monitor)
         (h : Heartbeat.t),
    match snd (snd (check exec monitor h)) with
    | Normal _ => True
    | Throw e =>
        exists reason, e = Error ("Error checking Tailscale ping: " ++ reason)
    end.
Proof.
  intros exec monitor h. unfold check, runTailscalePing.
  destruct (settle _) as [out|reason]; [|cbn; eauto].
  destruct (parseTailscaleOutput out h) as [h' [u|e]]; cbn; eauto.
Qed.

(** X2: when the child process reports an error, or writes anything to its
    error stream, [check] throws with that reason and hands the heartbeat
    back unchanged, whatever is on the output stream (a pong included). *)
Theorem check_process_failure_keeps_heartbeat :
  forall (exec : string -> ExecOptions -> ExecResult) (monitor : Monitor)
         (h : Heartbeat.t) (reason : string),
    let cmd := "tailscale ping " ++ hostname monitor in
    rejection (exec cmd {| timeout := (interval monitor * 1000 * ratio)%float |})
      = Some reason ->
    check exec monitor h =
    ([mkLog Debug "Tailscale" cmd; mkLog Debug "Tailscale" reason],
     (h, Throw (Error ("Error checking Tailscale ping: " ++ reason)))).
Proof.
  intros exec monitor h reason cmd Hrej.
  unfold check, runTailscalePing. fold cmd.
  now rewrite settle_rejection, Hrej.
Qed.

Lemma check_process_failure_keeps_heartbeat_witness :
  check exec_pong_with_stderr sample_monitor sample_heartbeat =
  ([mkLog Debug "Tailscale" "tailscale ping hub";
    mkLog Debug "Tailscale" "Error in output: health check: not logged in"],
   (sample_heartbeat,
    Throw (Error "Error checking Tailscale ping: Error in output: health check: not logged in"))).
Proof.
  apply (check_process_failure_keeps_heartbeat exec_pong_with_stderr
           sample_monitor sample_heartbeat
           "Error in output: health check: not logged in").
  reflexivity.
Defined.

(** The heartbeat after the parser is the one before, or that one with
    status UP, or that one with status, ping and msg set. *)
Lemma parse_heartbeat_shapes (out : string) (h : Heartbeat.t) :
  let h' := fst (parseTailscaleOutput out h) in
  h' = h \/
  h' = Heartbeat.set_status UP h \/
  exists line n,
    h' = Heartbeat.set_msg (VStr line)
           (Heartbeat.set_ping (VNum n) (Heartbeat.set_status UP h)).
Proof.
  pose proof (parse_cases out h) as H.
  destruct (first_decisive (split LF out)) as [line|].
  - destruct (includes "pong from" line).
    + destruct (after " in " line) as [r|]; cbn zeta; rewrite H; cbn [fst];
        [right; right; eauto | right; left; reflexivity].
    + cbn zeta. rewrite H. now left.
  - cbn zeta. rewrite H. now left.
Qed.

(** X3: the parser, and [check] around it, write to status, ping and msg
    only: the monitor id, the time, the important flag and the duration of
    the heartbeat come back as they went in, on every path. *)
Theorem check_keeps_other_fields :
  forall (exec : string -> ExecOptions -> ExecResult) (monitor : Monitor)
         (out : string) (h : Heartbeat.t),
    let untouched (h' : Heartbeat.t) :=
      Heartbeat.monitor_id h' = Heartbeat.monitor_id h /\
      Heartbeat.time h' = Heartbeat.time h /\
      Heartbeat.important h' = Heartbeat.important h /\
      Heartbeat.duration h' = Heartbeat.duration h in
    untouched (fst (parseTailscaleOutput out h)) /\
    untouched (fst (snd (check exec monitor h))).
Proof.
  intros exec monitor out h untouched.
  assert (Hparse : forall o, untouched (fst (parseTailscaleOutput o h))).
  { intros o. destruct (parse_heartbeat_shapes o h) as [E | [E | (line & n & E)]];
      cbn zeta in E; rewrite E; repeat split. }
  split; [apply Hparse|].
  unfold check, runTailscalePing.
  destruct (settle _) as [o|reason]; [|repeat split].
  specialize (Hparse o).
  destruct (parseTailscaleOutput o h) as [h' [u|e]]; exact Hparse.
Qed.

(** X4: two outputs with the same first non-blank line (or both with
    none) are the same to the parser: what follows that line, and how many
    blank lines precede it, changes neither the heartbeat nor the outcome. *)
Theorem parse_decided_by_first_nonblank_line :
  forall (out1 out2 : string) (h : Heartbeat.t),
    first_decisive (split LF out1) = first_decisive (split LF out2) ->
    parseTailscaleOutput out1 h = parseTailscaleOutput out2 h.
Proof.
  intros out1 out2 h H. unfold parseTailscaleOutput.
  now rewrite !for_of_decisive, H.
Qed.

Lemma parse_decided_by_first_nonblank_line_witness :
  parseTailscaleOutput pong_output sample_heartbeat =
  parseTailscaleOutput pong_line sample_heartbeat.
Proof.
  apply (parse_decided_by_first_nonblank_line pong_output pong_line
           sample_heartbeat).
  reflexivity.
Defined.

(** X5: parsing the same output into the heartbeat a second time changes
    nothing more: the heartbeat and the outcome are those of the first
    time. *)
Theorem parse_twice_is_parse_once :
  forall (out : string) (h : Heartbeat.t),
    parseTailscaleOutput out (fst (parseTailscaleOutput out h)) =
    (fst (parseTailscaleOutput out h), snd (parseTailscaleOutput out h)).
Proof.
  intros out h.
  pose proof (parse_cases out h) as H1.
  pose proof (parse_cases out (fst (parseTailscaleOutput out h))) as H2.
  destruct (first_decisive (split LF out)) as [line|].
  - destruct (includes "pong from" line).
    + destruct (after " in " line) as [r|]; rewrite H2, H1; reflexivity.
    + rewrite H2, H1. reflexivity.
  - rewrite H2, H1. reflexivity.
Qed.

(** X6: [check] returns normally only when the process reported no error
    and wrote nothing to its error stream, and then either every output line
    was blank and the heartbeat is unchanged, or the first non-blank line
    holds the pong marker and the round-trip separator, the status is UP and
    msg is that line. *)
Theorem check_normal_return :
  forall (exec : string -> ExecOptions -> ExecResult) (monitor : Monitor)
         (h : Heartbeat.t),
    let r := exec ("tailscale ping " ++ hostname monitor)
                  {| timeout := (interval monitor * 1000 * ratio)%float |} in
    let h' := fst (snd (check exec monitor h)) in
    snd (snd (check exec monitor h)) = Normal tt ->
    error r = None /\ stderr r = EmptyString /\
    ((first_decisive (split LF (stdout r)) = None /\ h' = h) \/
     exists line,
       first_decisive (split LF (stdout r)) = Some line /\
       includes "pong from" line = true /\
       includes " in " line = true /\
       Heartbeat.status h' = UP /\
       Heartbeat.msg h' = VStr line).
Proof.
  intros exec monitor h r h'. subst h'.
  unfold check, runTailscalePing. fold r. rewrite settle_rejection.
  unfold rejection.
  destruct (error r) as [m|]; [discriminate|].
  cbn [truthy]. destruct (String.eqb_spec (stderr r) EmptyString) as [E|_];
    [|discriminate]. cbn [negb].
  pose proof (parse_cases (stdout r) h) as H.
  destruct (first_decisive (split LF (stdout r))) as [line|].
  - destruct (includes "pong from" line) eqn:Hpong.
    + destruct (after " in " line) as [s|] eqn:Ha; rewrite H; cbn;
        [|discriminate].
      intros _. repeat split; try assumption. right. exists line.
      repeat split; try assumption.
      now rewrite (after_includes " in " line), Ha.
    + rewrite H. discriminate.
  - rewrite H. cbn. intros _. repeat split; try assumption. now left.
Qed.

Lemma check_normal_return_witness :
  Heartbeat.status (fst (snd (check exec_pong sample_monitor sample_heartbeat))) = UP /\
  Heartbeat.msg (fst (snd (check exec_pong sample_monitor sample_heartbeat)))
    = VStr pong_line.
Proof.
  destruct (check_normal_return exec_pong sample_monitor sample_heartbeat
              eq_refl) as (_ & _ & [[H _] | (line & Hfirst & _ & _ & Hs & Hm)]).
  - discriminate H.
  - injection Hfirst as <-. exact (conj Hs Hm).
Defined.

(* ------------------------------------------------------------------ *)
(** ** Further properties of the heartbeat views *)

(** X7: the public view depends on status, time and ping alone: two
    heartbeats that agree on these three have the same public view, whatever
    their message, monitor id, important flag and duration. *)
Theorem public_view_hides_private_fields :
  forall a b : Heartbeat.t,
    Heartbeat.status a = Heartbeat.status b ->
    Heartbeat.time a = Heartbeat.time b ->
    Heartbeat.ping a = Heartbeat.ping b ->
    Heartbeat.toPublicJSON a = Heartbeat.toPublicJSON b.
Proof.
  intros a b Hs Ht Hp. unfold Heartbeat.toPublicJSON. now rewrite Hs, Ht, Hp.
Qed.

Lemma public_view_hides_private_fields_witness :
  Heartbeat.msg sample_heartbeat <> Heartbeat.msg other_heartbeat /\
  Heartbeat.toPublicJSON sample_heartbeat = Heartbeat.toPublicJSON other_heartbeat.
Proof.
  split; [discriminate|].
  apply (public_view_hides_private_fields sample_heartbeat other_heartbeat);
    reflexivity.
Defined.

(** X8: the full view loses nothing: two heartbeats with the same full
    view are the same heartbeat, field for field. *)
Theorem full_view_is_lossless :
  forall a b : Heartbeat.t,
    Heartbeat.same_object (Heartbeat.toJSON a) (Heartbeat.toJSON b) -> a = b.
Proof.
  intros [a1 a2 a3 a4 a5 a6 a7] [b1 b2 b3 b4 b5 b6 b7] H.
  pose proof (H "monitorID") as H1. pose proof (H "status") as H2.
  pose proof (H "time") as H3. pose proof (H "msg") as H4.
  pose proof (H "ping") as H5. pose proof (H "important") as H6.
  pose proof (H "duration") as H7.
  cbn in H1, H2, H3, H4, H5, H6, H7. congruence.
Qed.

Lemma full_view_is_lossless_witness :
  Heartbeat.set_msg (VStr "connect ECONNREFUSED 10.0.0.5:443")
    (Heartbeat.set_msg (VStr "up") sample_heartbeat) = sample_heartbeat.
Proof.
  apply full_view_is_lossless. intros k. reflexivity.
Defined.

(* ------------------------------------------------------------------ *)
(** ** Further properties of timezone and client-address resolution *)

Lemma snd_andThen {A B : Type} (m : W A) (k : A -> W B) :
  snd (andThen m k) = snd (k (snd m)).
Proof. destruct m as [l a]. cbn. now destruct (k a). Qed.

(** The timezone each of the last two steps returns. *)
Lemma fromGuess_result (tz_formats : JSValue -> bool) (guess : Completion JSValue) :
  snd (fromGuess tz_formats guess) =
  match guess with
  | Normal g => if usable tz_formats g then g else VStr "UTC"
  | Throw _ => VStr "UTC"
  end.
Proof.
  unfold fromGuess, usable, checkTimezone. destruct guess as [g|e];
    rewrite !snd_andThen; [|reflexivity].
  destruct (truthy g); [|reflexivity].
  destruct (tz_formats g); [reflexivity|]. now rewrite snd_andThen.
Qed.

Lemma fromSettings_result (Settings_get : string -> JSValue)
                          (tz_formats : JSValue -> bool)
                          (guess : Completion JSValue) :
  snd (fromSettings Settings_get tz_formats guess) =
  if usable tz_formats (Settings_get "serverTimezone")
  then Settings_get "serverTimezone"
  else snd (fromGuess tz_formats guess).
Proof.
  unfold fromSettings, usable, checkTimezone. rewrite snd_andThen.
  destruct (truthy (Settings_get "serverTimezone")); [|reflexivity].
  destruct (tz_formats (Settings_get "serverTimezone")); [reflexivity|].
  now rewrite snd_andThen.
Qed.

Lemma getTimezone_result (Settings_get : string -> JSValue)
                         (tz_formats : JSValue -> bool)
                         (env_TZ : option string) (guess : Completion JSValue) :
  snd (getTimezone Settings_get tz_formats env_TZ guess) =
  match env_TZ with
  | Some tz =>
      if usable tz_formats (VStr tz) then VStr tz
      else snd (fromSettings Settings_get tz_formats guess)
  | None => snd (fromSettings Settings_get tz_formats guess)
  end.
Proof.
  unfold getTimezone, usable, checkTimezone.
  destruct env_TZ as [tz|]; [|reflexivity].
  destruct (truthy (VStr tz)); [|reflexivity].
  destruct (tz_formats (VStr tz)); [reflexivity|]. now rewrite snd_andThen.
Qed.

(** X9: [getTimezone] returns the first usable one of [process.env.TZ], the
    persisted [serverTimezone] and the system guess, in this order, and UTC
    when none is usable (the guess may also have thrown). *)
Theorem getTimezone_fallback_chain :
  forall (Settings_get : string -> JSValue) (tz_formats : JSValue -> bool)
         (env_TZ : option string) (guess : Completion JSValue),
    snd (getTimezone Settings_get tz_formats env_TZ guess) =
    let from_env := match env_TZ with Some tz => VStr tz | None => VUndefined end in
    let stored := Settings_get "serverTimezone" in
    if usable tz_formats from_env then from_env
    else if usable tz_formats stored then stored
    else match guess with
         | Normal g => if usable tz_formats g then g else VStr "UTC"
         | Throw _ => VStr "UTC"
         end.
Proof.
  intros Settings_get tz_formats env_TZ guess. cbn zeta.
  rewrite getTimezone_result, fromSettings_result, fromGuess_result.
  destruct env_TZ as [tz|]; reflexivity.
Qed.

(** X10: whatever the three sources hold, the timezone [getTimezone]
    returns is one the date library can format, or it is UTC. *)
Theorem getTimezone_valid_or_UTC :
  forall (Settings_get : string -> JSValue) (tz_formats : JSValue -> bool)
         (env_TZ : option string) (guess : Completion JSValue),
    let tz := snd (getTimezone Settings_get tz_formats env_TZ guess) in
    tz = VStr "UTC" \/ (truthy tz = true /\ tz_formats tz = true).
Proof.
  intros Settings_get tz_formats env_TZ guess. cbn zeta.
  rewrite getTimezone_result, fromSettings_result, fromGuess_result.
  unfold usable.
  destruct env_TZ as [tz|].
  - destruct (truthy (VStr tz)) eqn:T1, (tz_formats (VStr tz)) eqn:V1;
      cbn [andb]; auto;
      destruct (truthy (Settings_get "serverTimezone")) eqn:T2,
               (tz_formats (Settings_get "serverTimezone")) eqn:V2;
      cbn [andb]; auto;
      destruct guess as [g|e]; auto;
      destruct (truthy g) eqn:T3, (tz_formats g) eqn:V3; cbn [andb]; auto.
  - destruct (truthy (Settings_get "serverTimezone")) eqn:T2,
             (tz_formats (Settings_get "serverTimezone")) eqn:V2;
      cbn [andb]; auto;
      destruct guess as [g|e]; auto;
      destruct (truthy g) eqn:T3, (tz_formats g) eqn:V3; cbn [andb]; auto.
Qed.

(** X11: with the trust-proxy setting off, the request headers have no
    say: two sockets with the same remote address get the same client IP,
    whatever forwarded-for and real-ip headers they carry. *)
Theorem getClientIP_untrusted_ignores_headers :
  forall (Settings_get : string -> JSValue) (s1 s2 : Socket),
    truthy (Settings_get "trustProxy") = false ->
    remoteAddress s1 = remoteAddress s2 ->
    getClientIP Settings_get s1 = getClientIP Settings_get s2.
Proof.
  intros Settings_get s1 s2 Hoff Haddr. unfold getClientIP.
  now rewrite Hoff, Haddr.
Qed.

Lemma getClientIP_untrusted_ignores_headers_witness :
  getClientIP direct_settings proxied_socket = Normal (VStr "172.17.0.1") /\
  getClientIP direct_settings spoofing_socket = Normal (VStr "172.17.0.1").
Proof.
  split; [reflexivity|].
  rewrite <- (getClientIP_untrusted_ignores_headers direct_settings
                proxied_socket spoofing_socket eq_refl eq_refl).
  reflexivity.
Defined.

(* ------------------------------------------------------------------ *)
(** ** The server's registries, services and timezone state *)

Module ServerStateFacts.
Import UptimeKumaServerState.

Lemma lookup_assign_same {V : Type} (k : Z) (v : V) (o : Table V) :
  lookup k (assign k v o) = Some v.
Proof.
  induction o as [|[k' v'] o IH]; cbn.
  - now rewrite Z.eqb_refl.
  - destruct (Z.eqb_spec k k'); cbn.
    + now rewrite Z.eqb_refl.
    + destruct (Z.eqb_spec k k'); [contradiction | exact IH].
Qed.

Lemma lookup_assign_other {V : Type} (k k0 : Z) (v : V) (o : Table V) :
  k <> k0 -> lookup k (assign k0 v o) = lookup k o.
Proof.
  intros Hne. induction o as [|[k' v'] o IH]; cbn.
  - destruct (Z.eqb_spec k k0); [contradiction | reflexivity].
  - destruct (Z.eqb_spec k0 k') as [<-|]; cbn.
    + destruct (Z.eqb_spec k k0); [contradiction | reflexivity].
    + destruct (Z.eqb_spec k k'); [reflexivity | exact IH].
Qed.

Lemma lookup_assign {V : Type} (k k0 : Z) (v : V) (o : Table V) :
  lookup k (assign k0 v o) = if Z.eqb k k0 then Some v else lookup k o.
Proof.
  destruct (Z.eqb_spec k k0) as [->|Hne];
    [apply lookup_assign_same | now apply lookup_assign_other].
Qed.

Lemma assign_keys {V : Type} (k : Z) (v : V) (o : Table V) (x : Z) :
  In x (map fst (assign k v o)) -> x = k \/ In x (map fst o).
Proof.
  induction o as [|[k' v'] o IH]; cbn.
  - intros [<-|[]]. now left.
  - destruct (Z.eqb_spec k k') as [<-|]; cbn; intros [<-|H]; auto.
    destruct (IH H); auto.
Qed.

Lemma assign_NoDup {V : Type} (k : Z) (v : V) (o : Table V) :
  NoDup (map fst o) -> NoDup (map fst (assign k v o)).
Proof.
  induction o as [|[k' v'] o IH]; cbn; intros H.
  - constructor; [intros [] | constructor].
  - inversion H as [|? ? Hnin Hrest]; subst.
    destruct (Z.eqb_spec k k') as [<-|Hne]; cbn.
    + now constructor.
    + constructor; [|now apply IH].
      intros Hin. apply assign_keys in Hin as [E|Hin]; [congruence | contradiction].
Qed.

Lemma lookup_absent {V : Type} (k : Z) (o : Table V) :
  ~ In k (map fst o) -> lookup k o = None.
Proof.
  induction o as [|[k' v'] o IH]; cbn; [reflexivity|]. intros H.
  destruct (Z.eqb_spec k k') as [->|]; [|apply IH]; tauto.
Qed.

Section Facts.
Variables Monitor Maintenance JSON Store : Type.
Variable monitor_id : Monitor -> Z.
Variable monitor_toJSON : Monitor -> JSON.
Variable maintenance_id : Maintenance -> Z.
Variable maintenance_toJSON : Maintenance -> JSON.
Variable R_find_monitors : Z -> list Monitor.
Variable Settings_get : Store -> string -> JSValue.
Variable Settings_set : string -> JSValue -> string -> Store -> Store * Completion unit.
Variable tz_formats : JSValue -> bool.
Variable env : string -> option string.
Variable execSync : string -> Completion unit.

Lemma load_lookup (rows : list Maintenance) :
  forall (r : Table Maintenance) (k : Z),
    lookup k (fst (loadMaintenanceList Maintenance JSON maintenance_id rows r)) =
    match latest (fun m => Z.eqb k (maintenance_id m)) rows with
    | Some m => Some m
    | None => lookup k r
    end.
Proof.
  induction rows as [|m rest IH]; intros r k; [reflexivity|].
  cbn [loadMaintenanceList latest].
  specialize (IH (assign (maintenance_id m) m r) k).
  destruct (loadMaintenanceList Maintenance JSON maintenance_id rest _) as [final runs].
  cbn [fst] in IH |- *. rewrite IH.
  destruct (latest _ rest); [reflexivity|]. rewrite lookup_assign.
  now destruct (Z.eqb k (maintenance_id m)).
Qed.

Lemma load_runs (rows : list Maintenance) :
  forall r : Table Maintenance,
    snd (loadMaintenanceList Maintenance JSON maintenance_id rows r) = map Run rows.
Proof.
  induction rows as [|m rest IH]; intros r; [reflexivity|].
  cbn [loadMaintenanceList map].
  specialize (IH (assign (maintenance_id m) m r)).
  destruct (loadMaintenanceList Maintenance JSON maintenance_id rest _) as [final runs].
  cbn [snd] in IH |- *. now rewrite IH.
Qed.

Lemma load_NoDup (rows : list Maintenance) :
  forall r : Table Maintenance,
    NoDup (map fst r) ->
    NoDup (map fst (fst (loadMaintenanceList Maintenance JSON maintenance_id rows r))).
Proof.
  induction rows as [|m rest IH]; intros r H; [exact H|].
  cbn [loadMaintenanceList].
  specialize (IH (assign (maintenance_id m) m r) (assign_NoDup _ _ _ H)).
  now destruct (loadMaintenanceList Maintenance JSON maintenance_id rest _) as [final runs].
Qed.

Lemma collect_maintenances_lookup (entries : Table Maintenance) :
  NoDup (map fst entries) ->
  forall (result : Table JSON) (k : Z),
    lookup k (collect_maintenances Maintenance JSON maintenance_toJSON entries result) =
    match lookup k entries with
    | Some m => Some (maintenance_toJSON m)
    | None => lookup k result
    end.
Proof.
  induction entries as [|[k0 m0] rest IH]; intros H result k; [reflexivity|].
  inversion H as [|? ? Hnin Hrest]; subst.
  cbn [collect_maintenances lookup]. rewrite (IH Hrest), lookup_assign.
  destruct (Z.eqb_spec k k0) as [->|]; [|reflexivity].
  now rewrite (lookup_absent k0 rest Hnin).
Qed.

Lemma collect_monitors_lookup (monitors : list Monitor) :
  forall (result : Table JSON) (k : Z),
    lookup k (collect_monitors Monitor JSON monitor_id monitor_toJSON monitors result) =
    match latest (fun m => Z.eqb k (monitor_id m)) monitors with
    | Some m => Some (monitor_toJSON m)
    | None => lookup k result
    end.
Proof.
  induction monitors as [|m rest IH]; intros result k; [reflexivity|].
  cbn [collect_monitors latest]. rewrite IH.
  destruct (latest _ rest); [reflexivity|]. rewrite lookup_assign.
  now destruct (Z.eqb k (monitor_id m)).
Qed.

End Facts.
End ServerStateFacts.

Module Srv := UptimeKumaServerState.

Section ServerStateProperties.
Import ServerStateFacts.
Variables Monitor Maintenance JSON Store : Type.
Variable monitor_id : Monitor -> Z.
Variable monitor_toJSON : Monitor -> JSON.
Variable maintenance_id : Maintenance -> Z.
Variable maintenance_toJSON : Maintenance -> JSON.
Variable R_find_monitors : Z -> list Monitor.
Variable Settings_get : Store -> string -> JSValue.
Variable Settings_set : string -> JSValue -> string -> Store -> Store * Completion unit.
Variable tz_formats : JSValue -> bool.
Variable env : string -> option string.
Variable execSync : string -> Completion unit.

(** X12: [start] and [stop] never throw, whatever [execSync] does; and they
    run the service command only inside a container and only when the
    [nscd] setting is truthy or [null]: an explicit [false] (or an unset
    container variable) means no command and no log line at all. *)
Theorem start_stop_never_throw :
  forall store : Store,
    let starting := Srv.start Maintenance JSON Store Settings_get env execSync store in
    let stopping := Srv.stop Maintenance JSON Store Settings_get env execSync store in
    let gate := Srv.enabled (Settings_get store "nscd")
                && Srv.env_set env "UPTIME_KUMA_IS_CONTAINER" in
    snd starting = Normal tt /\
    snd stopping = Normal tt /\
    (gate = false -> fst starting = [] /\ fst stopping = []) /\
    (gate = true ->
     In (Srv.ExecSync "sudo service nscd start" (Some "pipe")) (fst starting) /\
     In (Srv.ExecSync "sudo service nscd stop" None) (fst stopping)).
Proof.
  intros store. cbn zeta.
  unfold Srv.start, Srv.stop, Srv.startNSCDServices, Srv.stopNSCDServices.
  destruct (Srv.enabled (Settings_get store "nscd"));
    destruct (Srv.env_set env "UPTIME_KUMA_IS_CONTAINER"); cbn [andb];
    try (repeat split; discriminate).
  unfold Srv.try_catch, Srv.bind, Srv.perform, Srv.run_execSync.
  destruct (execSync "sudo service nscd start") as [[]|e1];
    destruct (execSync "sudo service nscd stop") as [[]|e2];
    cbn; repeat split; try discriminate; auto.
Qed.

(** X13: after [loadMaintenanceList], [getMaintenance] of an id returns the
    last of the loaded rows with that id, and for an id no row has, what the
    list held before ([null] when nothing); each row was started once, in the
    order of the rows. *)
Theorem loadMaintenanceList_then_getMaintenance :
  forall (rows : list Maintenance) (before : Srv.Table Maintenance) (k : Z),
    let loaded := Srv.loadMaintenanceList Maintenance JSON maintenance_id rows before in
    Srv.getMaintenance Maintenance (fst loaded) k =
      match latest (fun m => Z.eqb k (maintenance_id m)) rows with
      | Some m => Some m
      | None => Srv.getMaintenance Maintenance before k
      end /\
    snd loaded = map Srv.Run rows.
Proof.
  intros rows before k. cbn zeta. split; [|apply load_runs].
  unfold Srv.getMaintenance. rewrite load_lookup.
  destruct (latest _ rows); [reflexivity|].
  now destruct (Srv.lookup k before).
Qed.

(** X14: for a maintenance list filled by [loadMaintenanceList], the JSON
    list has an entry exactly for the ids [getMaintenance] knows, and the
    entry is that maintenance's own JSON view; the user id asked for plays no
    part. *)
Theorem getMaintenanceJSONList_entries :
  forall (rows : list Maintenance) (userID k : Z),
    let maintenanceList :=
      fst (Srv.loadMaintenanceList Maintenance JSON maintenance_id rows []) in
    Srv.lookup k (Srv.getMaintenanceJSONList Maintenance JSON maintenance_toJSON
                    maintenanceList userID) =
    option_map maintenance_toJSON (Srv.getMaintenance Maintenance maintenanceList k).
Proof.
  intros rows userID k. cbn zeta.
  unfold Srv.getMaintenanceJSONList, Srv.getMaintenance.
  rewrite collect_maintenances_lookup.
  - now destruct (Srv.lookup k _).
  - apply load_NoDup. constructor.
Qed.

(** X15: [sendMonitorList] emits one event, [monitorList], to the room of
    the socket's own user and to no other room; what it emits is what it
    returns, and that list holds, under each id, the JSON view of the last
    monitor with this id that the query for this user returned, and nothing
    under any other id. *)
Theorem sendMonitorList_only_to_own_room :
  forall userID : Z,
    let sent := Srv.sendMonitorList Monitor Maintenance JSON monitor_id
                  monitor_toJSON R_find_monitors userID in
    let list := Srv.getMonitorJSONList Monitor JSON monitor_id monitor_toJSON
                  R_find_monitors userID in
    sent = ([Srv.Emit userID "monitorList" list], Normal list) /\
    (forall room event payload,
        In (Srv.Emit room event payload) (fst sent) -> room = userID) /\
    (forall k,
        Srv.lookup k list =
        option_map monitor_toJSON
          (latest (fun m => Z.eqb k (monitor_id m)) (R_find_monitors userID))).
Proof.
  intros userID. cbn zeta. split; [reflexivity|]. split.
  - intros room event payload [H|[]]. now inversion H.
  - intros k. unfold Srv.getMonitorJSONList. rewrite collect_monitors_lookup.
    now destruct (latest _ _).
Qed.

(** X16: a [setTimezone] that returns normally is read back by
    [getTimezone]: for a non-empty zone name the next [getTimezone] returns
    that name, from [process.env.TZ], without a log line and whatever the
    system guess is. *)
Theorem setTimezone_then_getTimezone :
  forall (timezone : string) (z z' : Srv.Zone Store) (guess : Completion JSValue),
    timezone <> EmptyString ->
    Srv.setTimezone Store Settings_set tz_formats timezone z = (z', Normal tt) ->
    Srv.getTimezone Store Settings_get tz_formats z' guess = ([], VStr timezone).
Proof.
  intros timezone z z' guess Hne. unfold Srv.setTimezone, UptimeKumaServer.checkTimezone.
  destruct (tz_formats (VStr timezone)) eqn:V; [|discriminate].
  destruct (Settings_set _ _ _ _) as [store' [u|e]]; [|discriminate].
  intros [= <-]. unfold Srv.getTimezone, UptimeKumaServer.getTimezone,
    UptimeKumaServer.checkTimezone.
  cbn [Srv.env_TZ truthy]. rewrite V.
  destruct (String.eqb_spec timezone EmptyString); [contradiction | reflexivity].
Qed.

(** X17: a [setTimezone] that throws leaves [process.env.TZ] and the date
    library's default zone as they were; for a zone the date library cannot
    format it throws [Invalid timezone:<zone>] before the settings store is
    touched, so nothing changes at all. *)
Theorem setTimezone_failure_changes_no_zone :
  forall (timezone : string) (z : Srv.Zone Store),
    let after := Srv.setTimezone Store Settings_set tz_formats timezone z in
    (forall e, snd after = Throw e ->
               Srv.env_TZ Store (fst after) = Srv.env_TZ Store z /\
               Srv.tz_default Store (fst after) = Srv.tz_default Store z) /\
    (tz_formats (VStr timezone) = false ->
     after = (z, Throw (Error ("Invalid timezone:" ++ timezone)))).
Proof.
  intros timezone z. cbn zeta.
  unfold Srv.setTimezone, UptimeKumaServer.checkTimezone.
  destruct (tz_formats (VStr timezone)); [|split; [now intros | reflexivity]].
  split; [|discriminate].
  destruct (Settings_set _ _ _ _) as [store' [u|e']]; cbn; [discriminate|].
  now intros.
Qed.

End ServerStateProperties.

Lemma setTimezone_then_getTimezone_witness :
  Srv.getTimezone (string -> JSValue) (fun store => store) known_zone
    (fst (Srv.setTimezone (string -> JSValue) store_set known_zone "UTC" sample_zone))
    (Throw (Error "no Intl"))
  = ([], VStr "UTC").
Proof.
  apply (setTimezone_then_getTimezone (string -> JSValue) (fun store => store)
           store_set known_zone "UTC" sample_zone _ (Throw (Error "no Intl")));
    [discriminate | reflexivity].
Defined.

Lemma start_stop_never_throw_witness :
  snd (Srv.start unit unit (string -> JSValue) (fun store => store)
         container_env no_nscd proxied_settings) = Normal tt /\
  In (Srv.ExecSync "sudo service nscd start" (Some "pipe"))
     (fst (Srv.start unit unit (string -> JSValue) (fun store => store)
             container_env no_nscd proxied_settings)).
Proof.
  destruct (start_stop_never_throw unit unit (string -> JSValue)
              (fun store => store) container_env no_nscd proxied_settings)
    as (Hstart & _ & _ & Hrun).
  split; [exact Hstart | apply Hrun; reflexivity].
Defined.

Lemma loadMaintenanceList_then_getMaintenance_witness :
  Srv.getMaintenance (Z * string)
    (fst (Srv.loadMaintenanceList (Z * string) unit fst maintenance_rows [])) 4
  = Some (4%Z, "db upgrade (moved)") /\
  Srv.getMaintenance (Z * string)
    (fst (Srv.loadMaintenanceList (Z * string) unit fst maintenance_rows [])) 5
  = None.
Proof.
  split.
  - apply (proj1 (loadMaintenanceList_then_getMaintenance (Z * string) unit fst
                    maintenance_rows [] 4)).
  - apply (proj1 (loadMaintenanceList_then_getMaintenance (Z * string) unit fst
                    maintenance_rows [] 5)).
Defined.

(* ------------------------------------------------------------------ *)
(** ** src/util.js: status flipping and hashing *)

Module UtilFacts.
Import Util.
Local Open Scope Z_scope.

Lemma charCodeSum_shift (str : string) :
  forall hash, charCodeSum str hash = hash + charCodeSum str 0.
Proof.
  induction str as [|c rest IH]; intros hash; cbn [charCodeSum]; [lia|].
  rewrite (IH (hash + Z.of_nat (nat_of_ascii c))).
  rewrite (IH (0 + Z.of_nat (nat_of_ascii c))). lia.
Qed.


Lemma charCodeSum_total (str : string) :
  charCodeSum str 0 = code_total (list_ascii_of_string str).
Proof.
  induction str as [|c rest IH]; [reflexivity|].
  cbn [charCodeSum list_ascii_of_string code_total].
  rewrite charCodeSum_shift, IH. reflexivity.
Qed.

Lemma code_total_perm (l1 l2 : list ascii) :
  Permutation l1 l2 -> code_total l1 = code_total l2.
Proof.
  induction 1; cbn [code_total]; lia.
Qed.


End UtilFacts.

Import Util UtilFacts.

(** X18: [flipStatus] undoes itself: flipping twice gives the status back,
    for every value.  It swaps UP and DOWN and leaves every other value,
    PENDING and MAINTENANCE among them, as it is. *)
Theorem flipStatus_involution :
  forall s : JSValue,
    flipStatus (flipStatus s) = s /\
    (s <> UP -> s <> DOWN -> flipStatus s = s) /\
    flipStatus UP = DOWN /\ flipStatus DOWN = UP /\
    flipStatus PENDING = PENDING /\ flipStatus MAINTENANCE = MAINTENANCE.
Proof.
  intros s. repeat split.
  - unfold flipStatus, same_number, UP, DOWN.
    destruct s as [| | b | [|z] | str | xs]; try reflexivity.
    destruct (Z.eqb_spec z 1) as [->|H1]; [reflexivity|].
    destruct (Z.eqb_spec z 0) as [->|H0]; [reflexivity|].
    now rewrite (proj2 (Z.eqb_neq z 1) H1), (proj2 (Z.eqb_neq z 0) H0).
  - intros Hup Hdown. unfold flipStatus, same_number, UP, DOWN in *.
    destruct s as [| | b | [|z] | str | xs]; try reflexivity.
    destruct (Z.eqb_spec z 1) as [->|H1]; [now elim Hup|].
    destruct (Z.eqb_spec z 0) as [->|H0]; [now elim Hdown | reflexivity].
Qed.


(** X20: [intHash] does not see the order of the code units: two strings
    that are rearrangements of each other hash alike, for every [length]. *)
Theorem intHash_of_rearrangement :
  forall (a b : string) (length : Z),
    Permutation (list_ascii_of_string a) (list_ascii_of_string b) ->
    intHash a length = intHash b length.
Proof.
  intros a b length H. unfold intHash.
  now rewrite !charCodeSum_total, (code_total_perm _ _ H).
Qed.

Lemma intHash_of_rearrangement_witness :
  intHash "MONITOR" 10 = intHash "ROTINOM" 10.
Proof.
  apply (intHash_of_rearrangement "MONITOR" "ROTINOM" 10).
  cbn. apply Permutation_rev with (l := list_ascii_of_string "MONITOR").
Defined.

(* ------------------------------------------------------------------ *)
(** ** src/util.js: random integers and secrets *)

Module RandomFacts.
Import Util.
Local Open Scope Z_scope.

Lemma ToInt32_small (z : Z) : - 2 ^ 31 <= z < 2 ^ 31 -> ToInt32 z = z.
Proof. intros H. unfold ToInt32. rewrite Z.mod_small; lia. Qed.

Lemma ones_bounds (i : Z) : 0 <= i <= 31 -> 0 <= Z.ones i < 2 ^ 31.
Proof.
  intros H. rewrite Z.ones_equiv.
  pose proof (Z.pow_pos_nonneg 2 i ltac:(lia) ltac:(lia)).
  pose proof (Z.pow_le_mono_r 2 i 31 ltac:(lia) ltac:(lia)). lia.
Qed.

Lemma lor_double_1 (m : Z) : 0 <= m -> Z.lor (2 * m) 1 = 2 * m + 1.
Proof. intros H. destruct m as [|p|p]; [reflexivity | reflexivity | lia]. Qed.

(** One more turn of the mask: [i] low bits set become [i + 1]. *)
Lemma mask_step (i : Z) :
  0 <= i <= 30 -> bor (shl (Z.ones i) 1) 1 = Z.ones (i + 1).
Proof.
  intros H. pose proof (ones_bounds i ltac:(lia)) as Hi.
  pose proof (ones_bounds (i + 1) ltac:(lia)) as Hi1.
  assert (E : Z.ones (i + 1) = 2 * Z.ones i + 1).
  { rewrite !Z.ones_equiv, Z.pow_add_r by lia. change (2 ^ 1) with 2. lia. }
  unfold shl, bor. change (ToUint32 1 mod 32) with 1.
  rewrite (ToInt32_small (Z.ones i)) by lia.
  rewrite Z.shiftl_mul_pow2 by lia. change (2 ^ 1) with 2.
  rewrite (ToInt32_small (Z.ones i * 2)) by lia.
  rewrite (ToInt32_small (Z.ones i * 2)) by lia.
  change (ToInt32 1) with 1.
  rewrite (Z.mul_comm (Z.ones i) 2), lor_double_1 by lia.
  rewrite ToInt32_small by lia. lia.
Qed.

Lemma ushr_1_halves (a : Z) (j : Z) :
  0 <= j <= 31 -> 0 <= a < 2 ^ (j + 1) -> 0 <= ushr a 1 < 2 ^ j.
Proof.
  intros Hj Ha. unfold ushr, ToUint32. change (1 mod 2 ^ 32 mod 32) with 1.
  pose proof (Z.pow_le_mono_r 2 (j + 1) 32 ltac:(lia) ltac:(lia)).
  rewrite Z.mod_small by lia.
  rewrite Z.shiftr_div_pow2 by lia. change (2 ^ 1) with 2.
  rewrite Z.pow_add_r in Ha by lia. change (2 ^ 1) with 2 in Ha.
  split; [apply Z.div_pos; lia|].
  apply Z.div_lt_upper_bound; lia.
Qed.

Lemma ushr_1_any (a : Z) : 0 <= ushr a 1 < 2 ^ 31.
Proof.
  unfold ushr, ToUint32. change (1 mod 2 ^ 32 mod 32) with 1.
  pose proof (Z.mod_pos_bound a (2 ^ 32) ltac:(lia)) as H.
  rewrite Z.shiftr_div_pow2 by lia. change (2 ^ 1) with 2.
  split; [apply Z.div_pos; lia|].
  apply Z.div_lt_upper_bound; lia.
Qed.

(** The sizing loop ends within [j] turns once [tmpRange] is below [2 ^ j]. *)
Lemma sizing_ends (j : nat) :
  forall (fuel : nat) (w : Sizing),
    (j <= fuel)%nat ->
    0 <= tmpRange w < 2 ^ Z.of_nat j ->
    exists w', sizing fuel w = Some w'.
Proof.
  induction j as [|j IH]; intros fuel w Hfuel Hw.
  - exists w. destruct fuel; cbn [sizing];
      destruct (Z.gtb_spec (tmpRange w) 0); try reflexivity; cbn in Hw; lia.
  - destruct fuel as [|fuel]; [lia|]. cbn [sizing].
    destruct (Z.gtb_spec (tmpRange w) 0); [|eauto].
    apply IH; [lia|]. cbn [sizing_step tmpRange].
    destruct (Z_le_gt_dec (Z.of_nat j) 31).
    + apply ushr_1_halves; [lia|].
      replace (Z.of_nat j + 1) with (Z.of_nat (S j)) by lia. exact Hw.
    + pose proof (ushr_1_any (tmpRange w)).
      pose proof (Z.pow_le_mono_r 2 31 (Z.of_nat j) ltac:(lia) ltac:(lia)). lia.
Qed.

(** With [i] bits in the mask and [tmpRange] below [2 ^ j], the loop ends
    with a mask of at most [i + j] low bits. *)
Lemma sizing_mask (j : nat) :
  forall (fuel : nat) (w : Sizing) (i : Z),
    (j <= fuel)%nat ->
    0 <= tmpRange w < 2 ^ Z.of_nat j ->
    0 <= i -> i + Z.of_nat j <= 31 ->
    mask w = Z.ones i ->
    exists w' i', sizing fuel w = Some w' /\ mask w' = Z.ones i' /\ 0 <= i' <= 31.
Proof.
  induction j as [|j IH]; intros fuel w i Hfuel Hw Hi Hij Hmask.
  - exists w, i. split; [|split; [exact Hmask | lia]].
    destruct fuel; cbn [sizing];
      destruct (Z.gtb_spec (tmpRange w) 0); try reflexivity; cbn in Hw; lia.
  - destruct fuel as [|fuel]; [lia|]. cbn [sizing].
    destruct (Z.gtb_spec (tmpRange w) 0);
      [|exists w, i; split; [reflexivity | split; [exact Hmask | lia]]].
    apply (IH fuel (sizing_step w) (i + 1)); try lia.
    + cbn [sizing_step tmpRange]. apply ushr_1_halves; [lia|].
      replace (Z.of_nat j + 1) with (Z.of_nat (S j)) by lia. exact Hw.
    + cbn [sizing_step mask]. rewrite Hmask. apply mask_step. lia.
Qed.

Lemma band_ones_nonneg (a i : Z) : 0 <= i <= 31 -> 0 <= band a (Z.ones i).
Proof.
  intros Hi. unfold band.
  rewrite (ToInt32_small (Z.ones i)) by (pose proof (ones_bounds i Hi); lia).
  rewrite Z.land_ones by lia.
  pose proof (Z.mod_pos_bound (ToInt32 a) (2 ^ i) ltac:(apply Z.pow_pos_nonneg; lia)).
  pose proof (Z.pow_le_mono_r 2 i 31 ltac:(lia) ltac:(lia)).
  rewrite ToInt32_small; lia.
Qed.

Lemma sizing_S (fuel : nat) (w : Sizing) :
  sizing (S fuel) w =
  if Z.gtb (tmpRange w) 0 then sizing fuel (sizing_step w) else Some w.
Proof. reflexivity. Qed.

End RandomFacts.

Import RandomFacts.

(** X21: the sizing loop of [getCryptoRandomInt] ends within 33 turns for
    every range, however large or negative, so the function can fail to
    return only through its retries. *)
Theorem sizing_always_ends :
  forall range : Z, exists w, sizing 33 (sizing_start range) = Some w.
Proof.
  intros range. unfold sizing_start. rewrite sizing_S. cbn [tmpRange].
  destruct (Z.gtb_spec range 0); [|eauto].
  apply (sizing_ends 31); [lia|]. cbn [sizing_step tmpRange].
  apply ushr_1_any.
Qed.

(** X22: for a range [max - min] from 0 to below 2^30, whatever
    [getCryptoRandomInt] returns lies between [min] and [max], both
    included, for every random source. *)
Theorem getCryptoRandomInt_within_bounds :
  forall (source : nat -> Init.Byte.byte) (depth : nat) (min max : Z)
         (d d' : Drawn) (v : Z),
    (0 <= max - min < 2 ^ 30)%Z ->
    getCryptoRandomInt source depth min max d = Some (v, d') ->
    (min <= v <= max)%Z.
Proof.
  intros source depth min max d d' v Hrange.
  revert d. induction depth as [|depth IH]; intros d; [discriminate|].
  cbn [getCryptoRandomInt].
  destruct (sizing_mask 30 33 (sizing_start (max - min)) 1
              ltac:(lia) ltac:(cbn [sizing_start tmpRange]; lia)
              ltac:(lia) ltac:(lia) eq_refl) as (w & i & Hw & Hmask & Hi).
  unfold sizing_start in Hw. rewrite Hw.
  destruct (getRandomBytes source (bytesNeeded w) _) as [randomBytes d1].
  rewrite Hmask.
  pose proof (band_ones_nonneg (assemble randomBytes 0 0) i Hi) as Hnonneg.
  destruct (Z.leb_spec (band (assemble randomBytes 0 0) (Z.ones i)) (max - min)).
  - intros [= <- _]. lia.
  - apply IH.
Qed.

Lemma getCryptoRandomInt_within_bounds_witness :
  getCryptoRandomInt counting_source 5 0 61 nothing_drawn
    = Some (18%Z, {| used := 3; console := [] |}) /\
  (0 <= 18 <= 61)%Z.
Proof.
  split; [reflexivity|].
  apply (getCryptoRandomInt_within_bounds counting_source 5 0 61 nothing_drawn
           {| used := 3; console := [] |} 18);
    [cbn; lia | reflexivity].
Defined.

(** X23: the two degenerate ranges.  With [max = min] the function returns
    [min] at once, without drawing a byte; with [max < min] it never
    returns, however deep the retries may nest. *)
Theorem getCryptoRandomInt_degenerate_ranges :
  forall (source : nat -> Init.Byte.byte) (depth : nat) (min max : Z) (d : Drawn),
    (max = min ->
     getCryptoRandomInt source (S depth) min max d =
       Some (min, {| used := used d + 0; console := console d |})) /\
    ((max < min)%Z -> getCryptoRandomInt source depth min max d = None).
Proof.
  intros source depth min max d. split.
  - intros ->. cbn [getCryptoRandomInt]. rewrite Z.sub_diag, sizing_S. cbn.
    now rewrite Z.add_0_r.
  - intros Hlt. revert d. induction depth as [|depth IH]; intros d; [reflexivity|].
    cbn [getCryptoRandomInt].
    destruct (Z.geb_spec (max - min) (2 ^ 32)) as [Hbig|_]; [lia|].
    rewrite sizing_S. cbn [tmpRange].
    destruct (Z.gtb_spec (max - min) 0) as [Hpos|_]; [lia|].
    cbn [bytesNeeded mask getRandomBytes Z.to_nat seq map assemble].
    change (band 0 1) with 0%Z.
    destruct (Z.leb_spec 0 (max - min)); [lia | apply IH].
Qed.

Module SecretFacts.
Import Util RandomFacts.

Lemma get_in (s : string) :
  forall (n : nat) (c : ascii),
    String.get n s = Some c -> In c (list_ascii_of_string s).
Proof.
  induction s as [|x s IH]; intros n c; [discriminate|].
  destruct n as [|n]; cbn.
  - intros [= ->]. now left.
  - intros H. right. eapply IH; eassumption.
Qed.

Lemma get_some (s : string) :
  forall n : nat, (n < String.length s)%nat -> exists c, String.get n s = Some c.
Proof.
  induction s as [|x s IH]; intros n H; cbn in H; [lia|].
  destruct n as [|n]; cbn; [eauto | apply IH; lia].
Qed.

Lemma charAt_inside (s : string) (i : Z) :
  (0 <= i < Z.of_nat (String.length s))%Z ->
  exists c, charAt s i = String c EmptyString /\ In c (list_ascii_of_string s).
Proof.
  intros H. unfold charAt.
  destruct (Z.ltb_spec i 0); [lia|].
  destruct (get_some s (Z.to_nat i) ltac:(lia)) as [c Hc].
  rewrite Hc. exists c. split; [reflexivity | eapply get_in; eassumption].
Qed.

Lemma length_append (a b : string) :
  String.length (a ++ b) = (String.length a + String.length b)%nat.
Proof. induction a as [|x a IH]; cbn; [reflexivity | now rewrite IH]. Qed.

Lemma list_ascii_append (a b : string) :
  list_ascii_of_string (a ++ b) =
  (list_ascii_of_string a ++ list_ascii_of_string b)%list.
Proof. induction a as [|x a IH]; cbn; [reflexivity | now rewrite IH]. Qed.

Lemma sizing_61 :
  sizing 33 (sizing_start 61) =
  Some {| tmpRange := 0; bitsNeeded := 6; bytesNeeded := 1; mask := 127 |}.
Proof. vm_compute. reflexivity. Qed.

(** One call for a character index, spelled out: the next byte decides. *)
Lemma index_draw (source : nat -> Init.Byte.byte) (depth : nat) (d : Drawn) :
  getCryptoRandomInt source (S depth) 0 61 d =
  let byte := Z.of_N (Strings.Byte.to_N (source (used d))) in
  let d' := {| used := used d + 1; console := console d |} in
  if Z.leb (secret_index byte) 61 then Some (secret_index byte, d')
  else getCryptoRandomInt source depth 0 61 d'.
Proof.
  cbn [getCryptoRandomInt].
  change (61 - 0)%Z with 61%Z. change (Z.geb 61 (2 ^ 32)) with false. cbv iota.
  change (sizing 33 _) with (sizing 33 (sizing_start 61)). rewrite sizing_61.
  unfold secret_index.
  change (Z.of_nat (String.length chars) - 1)%Z with 61%Z. rewrite sizing_61.
  cbn [bytesNeeded mask getRandomBytes].
  change (Z.to_nat 1) with 1%nat. cbn [seq map]. reflexivity.
Qed.

Lemma index_draw_result (source : nat -> Init.Byte.byte) (depth : nat) :
  forall (d d' : Drawn) (i : Z),
    getCryptoRandomInt source depth 0 61 d = Some (i, d') ->
    (0 <= i <= 61)%Z /\ (used d < used d')%nat.
Proof.
  induction depth as [|depth IH]; intros d d' i; [discriminate|].
  rewrite index_draw. cbn zeta.
  set (byte := Z.of_N (Strings.Byte.to_N (source (used d)))).
  destruct (Z.leb_spec (secret_index byte) 61) as [Hle|_].
  - intros [= <- <-]. split; [|cbn; lia]. split; [|exact Hle].
    unfold secret_index.
    change (Z.of_nat (String.length chars) - 1)%Z with 61%Z. rewrite sizing_61.
    cbn [mask]. change 127%Z with (Z.ones 7). apply band_ones_nonneg. lia.
  - intros H. apply IH in H as [Hi Hu]. cbn in Hu. split; [exact Hi | lia].
Qed.

Lemma genSecret_loop_result (source : nat -> Init.Byte.byte) (depth count : nat) :
  forall (secret s : string) (d d' : Drawn),
    genSecret_loop source depth count secret d = Some (s, d') ->
    exists t, s = secret ++ t /\ String.length t = count /\
              drawn_from chars t /\ (used d + count <= used d')%nat.
Proof.
  induction count as [|count IH]; intros secret s d d'; cbn [genSecret_loop].
  - intros [= <- <-]. exists EmptyString.
    repeat split; [now rewrite JSFacts.append_empty_r | constructor | lia].
  - change (Z.of_nat (String.length chars) - 1)%Z with 61%Z.
    destruct (getCryptoRandomInt source depth 0 61 d) as [[i d1]|] eqn:E;
      [|discriminate].
    apply index_draw_result in E as [Hi Hu].
    destruct (charAt_inside chars i ltac:(cbn; lia)) as (c & Hc & Hin).
    rewrite Hc. intros H. apply IH in H as (t & -> & Hlen & Hall & Hused).
    exists (String c t). repeat split.
    + now rewrite JSFacts.append_assoc.
    + cbn. now rewrite Hlen.
    + constructor; assumption.
    + lia.
Qed.

End SecretFacts.

Import SecretFacts.

(** X24: a secret that [genSecret] returns has exactly the length asked
    for, consists of letters and digits of its 62-character alphabet only,
    and took at least one fresh random byte per character. *)
Theorem genSecret_length_and_alphabet :
  forall (source : nat -> Init.Byte.byte) (depth length : nat)
         (d d' : Drawn) (secret : string),
    genSecret source depth length d = Some (secret, d') ->
    String.length secret = length /\
    drawn_from chars secret /\
    (used d + length <= used d')%nat.
Proof.
  intros source depth length d d' secret H. unfold genSecret in H.
  destruct (genSecret_loop_result source depth length EmptyString secret d d' H)
    as (t & -> & Hlen & Hall & Hused).
  now repeat split.
Qed.

Lemma genSecret_length_and_alphabet_witness :
  genSecret counting_source 10 8 nothing_drawn
    = Some ("S3BmV6Ep", {| used := 14; console := [] |}) /\
  String.length "S3BmV6Ep" = 8%nat /\
  drawn_from chars "S3BmV6Ep".
Proof.
  split; [reflexivity|].
  destruct (genSecret_length_and_alphabet counting_source 10 8 nothing_drawn
              {| used := 14; console := [] |} "S3BmV6Ep" eq_refl)
    as (Hlen & Hall & _).
  exact (conj Hlen Hall).
Defined.

(** X25: the character index of [genSecret] is drawn without bias: one
    call consumes bytes until one gives an index up to 61 under the mask,
    and each of the 62 indices is given by exactly two of the 256 byte
    values (the other 132 values are drawn again). *)
Theorem genSecret_index_unbiased :
  (forall (source : nat -> Init.Byte.byte) (depth : nat) (d : Drawn),
      getCryptoRandomInt source (S depth) 0 61 d =
      let byte := Z.of_N (Strings.Byte.to_N (source (used d))) in
      let d' := {| used := used d + 1; console := console d |} in
      if Z.leb (secret_index byte) 61 then Some (secret_index byte, d')
      else getCryptoRandomInt source depth 0 61 d') /\
  (forall i : Z,
      (0 <= i <= 61)%Z ->
      List.length (filter (fun byte => Z.eqb (secret_index byte) i) all_bytes) = 2%nat) /\
  List.length (filter (fun byte => Z.ltb 61 (secret_index byte)) all_bytes) = 132%nat.
Proof.
  split; [exact index_draw|].
  assert (E : forall byte, secret_index byte = band (assemble [byte] 0 0) 127).
  { intros byte. unfold secret_index.
    change (Z.of_nat (String.length chars) - 1)%Z with 61%Z.
    now rewrite sizing_61. }
  split.
  - intros i Hi.
    rewrite (filter_ext _ (fun byte => Z.eqb (band (assemble [byte] 0 0) 127) i))
      by (intros byte; now rewrite E).
    assert (Hall : forallb (fun i =>
              Nat.eqb (List.length
                         (filter (fun byte => Z.eqb (band (assemble [byte] 0 0) 127) i)
                                 all_bytes)) 2)
              (map Z.of_nat (seq 0 62)) = true) by (vm_compute; reflexivity).
    rewrite forallb_forall in Hall.
    apply Nat.eqb_eq, Hall, in_map_iff.
    exists (Z.to_nat i). split; [lia|]. apply in_seq. lia.
  - rewrite (filter_ext _ (fun byte => Z.ltb 61 (band (assemble [byte] 0 0) 127)))
      by (intros byte; now rewrite E).
    vm_compute. reflexivity.
Qed.

(* ------------------------------------------------------------------ *)
(** ** src/util.js: times of day *)

Module TimeFacts.
Import Util JSFacts.

Lemma prefix_one (c x : ascii) (s : string) :
  prefix (String c EmptyString) (String x s) = if ascii_dec c x then true else false.
Proof.
  cbn [prefix]. destruct (ascii_dec c x); [apply prefix_nil | reflexivity].
Qed.

Lemma includes_one_head (c x : ascii) (s : string) :
  includes (String c EmptyString) (String x s) = false ->
  c <> x /\ includes (String c EmptyString) s = false.
Proof.
  cbn [includes]. rewrite prefix_one. destruct (ascii_dec c x); [discriminate|].
  cbn [orb]. auto.
Qed.

(** Cutting at a one-unit separator that the front part does not hold. *)
Lemma before_one (c : ascii) (a b : string) :
  includes (String c EmptyString) a = false ->
  before (String c EmptyString) (a ++ String c b) = a.
Proof.
  induction a as [|x a IH]; intros H.
  - apply before_at_separator.
  - apply includes_one_head in H as [Hne H].
    change (String x a ++ String c b) with (String x (a ++ String c b)).
    cbn [before]. rewrite prefix_one.
    destruct (ascii_dec c x); [contradiction|]. now rewrite IH.
Qed.

Lemma after_one (c : ascii) (a b : string) :
  includes (String c EmptyString) a = false ->
  after (String c EmptyString) (a ++ String c b) = Some b.
Proof.
  induction a as [|x a IH]; intros H.
  - cbn [append after]. rewrite prefix_one.
    destruct (ascii_dec c c); [reflexivity | contradiction].
  - apply includes_one_head in H as [Hne H].
    change (String x a ++ String c b) with (String x (a ++ String c b)).
    cbn [after]. rewrite prefix_one.
    destruct (ascii_dec c x); [contradiction|]. now apply IH.
Qed.

Lemma before_without (c : ascii) (a : string) :
  includes (String c EmptyString) a = false ->
  before (String c EmptyString) a = a.
Proof.
  induction a as [|x a IH]; intros H; [reflexivity|].
  apply includes_one_head in H as [Hne H].
  cbn [before]. rewrite prefix_one.
  destruct (ascii_dec c x); [contradiction|]. now rewrite IH.
Qed.

Lemma after_without (sep a : string) :
  includes sep a = false -> after sep a = None.
Proof.
  rewrite after_includes. now destruct (after sep a).
Qed.

(** Splitting at a one-unit separator, piece by piece. *)
Lemma split_one_cons (c : ascii) (a b : string) :
  includes (String c EmptyString) a = false ->
  split (String c EmptyString) (a ++ String c b) =
  a :: split (String c EmptyString) b.
Proof.
  intros H. now rewrite split_unfold, (before_one c a b H), (after_one c a b H).
Qed.

Lemma split_one_last (c : ascii) (a : string) :
  includes (String c EmptyString) a = false ->
  split (String c EmptyString) a = [a].
Proof.
  intros H.
  now rewrite split_unfold, (before_without c a H), (after_without _ a H).
Qed.

(** *** Decimal numerals *)

Lemma digits_uint_pos (u : Decimal.uint) :
  forall a : positive,
    digits 10 (NilEmpty.string_of_uint u) (Some (Zpos a)) =
    Some (Zpos (Pos.of_uint_acc u a)).
Proof.
  induction u as [|u IH|u IH|u IH|u IH|u IH|u IH|u IH|u IH|u IH|u IH];
    intros a; [reflexivity|..];
    cbn [NilEmpty.string_of_uint digits Pos.of_uint_acc];
    match goal with
    | |- context [digitValue ?c] =>
        let v := eval vm_compute in (digitValue c) in
        change (digitValue c) with v
    end;
    cbv iota beta;
    match goal with
    | |- context [Z.ltb ?d 10] => change (Z.ltb d 10) with true
    end;
    cbv iota; rewrite <- IH; repeat f_equal; lia.
Qed.

Lemma digits_uint_zero (u : Decimal.uint) :
  digits 10 (NilEmpty.string_of_uint u) (Some 0%Z) =
  Some (Z.of_N (Pos.of_uint u)).
Proof.
  induction u as [|u IH|u IH|u IH|u IH|u IH|u IH|u IH|u IH|u IH|u IH];
    [reflexivity | exact IH | ..];
    cbn [NilEmpty.string_of_uint digits Pos.of_uint];
    match goal with
    | |- context [digitValue ?c] =>
        let v := eval vm_compute in (digitValue c) in
        change (digitValue c) with v
    end;
    cbv iota beta;
    match goal with
    | |- context [Z.ltb ?d 10] => change (Z.ltb d 10) with true
    end;
    cbv iota; apply digits_uint_pos.
Qed.

Lemma digits_uint_none (u : Decimal.uint) :
  u <> Decimal.Nil ->
  digits 10 (NilEmpty.string_of_uint u) None = Some (Z.of_N (Pos.of_uint u)).
Proof.
  destruct u as [|u|u|u|u|u|u|u|u|u|u]; intros H; [congruence | ..];
    cbn [NilEmpty.string_of_uint digits Pos.of_uint Z.of_N];
    match goal with
    | |- context [digitValue ?c] =>
        let v := eval vm_compute in (digitValue c) in
        change (digitValue c) with v
    end;
    cbv iota beta;
    match goal with
    | |- context [Z.ltb ?d 10] => change (Z.ltb d 10) with true
    end;
    cbv iota; [apply digits_uint_zero | apply digits_uint_pos ..].
Qed.

(** A numeral has no white space, sign or hexadecimal prefix for
    [parseInt] to take off, with or without a zero put in front. *)
Lemma parseInt_uint_plain (u : Decimal.uint) :
  u <> Decimal.Nil ->
  parseInt (NilEmpty.string_of_uint u) =
  match digits 10 (NilEmpty.string_of_uint u) None with
  | None => NaN
  | Some m => Fin (1 * m)
  end.
Proof.
  destruct u as [|u|u|u|u|u|u|u|u|u|u]; intros H; [congruence | | reflexivity ..].
  destruct u; reflexivity.
Qed.

Lemma parseInt_zero_uint_plain (u : Decimal.uint) :
  parseInt (String "0"%char (NilEmpty.string_of_uint u)) =
  match digits 10 (NilEmpty.string_of_uint u) (Some 0%Z) with
  | None => NaN
  | Some m => Fin (1 * m)
  end.
Proof. destruct u; reflexivity. Qed.

Lemma no_colon_uint (u : Decimal.uint) :
  includes ":" (NilEmpty.string_of_uint u) = false.
Proof.
  induction u; cbn [NilEmpty.string_of_uint includes]; [reflexivity | ..];
    rewrite prefix_one, IHu; reflexivity.
Qed.

Lemma uint_of_pos (p : positive) :
  Pos.to_uint p <> Decimal.Nil /\ Pos.of_uint (Pos.to_uint p) = Npos p.
Proof.
  pose proof (DecimalPos.Unsigned.of_to p) as H. split; [|exact H].
  intros E. rewrite E in H. discriminate.
Qed.

(** Two-digit padding puts at most one zero in front of a numeral. *)
Lemma pad2_cases (s : string) :
  s <> EmptyString ->
  padStart 2 "0" s = s \/ padStart 2 "0" s = String "0"%char s.
Proof.
  destruct s as [|c [|c2 r]]; intros H; [congruence | now right | now left].
Qed.

(** What the round trip needs to know of a padded natural number. *)
Lemma pad2_natural (largeToString : Z -> string) (z : Z) :
  (0 <= z <= 2 ^ 53)%Z ->
  parseInt (pad2 largeToString (Fin z)) = Fin z /\
  includes ":" (pad2 largeToString (Fin z)) = false /\
  pad2 largeToString (Fin z) <> EmptyString.
Proof.
  intros Hz. unfold pad2, numberToString.
  destruct (Z.leb_spec (Z.abs z) (2 ^ 53)) as [_|Hbig]; [|lia].
  destruct z as [|p|p];
    [split; [reflexivity | split; [reflexivity | discriminate]] | | lia].
  destruct (uint_of_pos p) as [Hnil Hof].
  cbn [Z.to_int NilZero.string_of_int].
  assert (E : NilZero.string_of_uint (Pos.to_uint p)
              = NilEmpty.string_of_uint (Pos.to_uint p)).
  { destruct (Pos.to_uint p); [congruence | reflexivity ..]. }
  rewrite E.
  assert (Hne : NilEmpty.string_of_uint (Pos.to_uint p) <> EmptyString).
  { destruct (Pos.to_uint p); [congruence | discriminate ..]. }
  destruct (pad2_cases _ Hne) as [-> | ->].
  - rewrite (parseInt_uint_plain _ Hnil), (digits_uint_none _ Hnil), Hof.
    split; [|split; [apply no_colon_uint | exact Hne]].
    cbn [Z.of_N]. now rewrite Z.mul_1_l.
  - rewrite parseInt_zero_uint_plain, digits_uint_zero, Hof.
    split; [|split; [|discriminate]].
    + cbn [Z.of_N]. now rewrite Z.mul_1_l.
    + cbn [includes]. rewrite prefix_one, no_colon_uint. reflexivity.
Qed.

Lemma truthy_front (a b : string) :
  a <> EmptyString -> truthy (VStr (a ++ b)) = true.
Proof. destruct a; [congruence | reflexivity]. Qed.

End TimeFacts.

Import TimeFacts.

(** X26: [parseTimeObject] throws exactly for a non-empty string without a
    colon; [null], [undefined] and the empty string give midnight with no
    seconds field; and a string with a colon always gives an object with a
    seconds field whose hours are [parseInt] of the text before the first
    colon. *)
Theorem parseTimeObject_throws_without_colon :
  forall time : string,
    (parseTimeObject (Some time)
       = Throw (Error "parseVueDatePickerTimeFormat: Invalid Time")
     <-> time <> EmptyString /\ includes ":" time = false) /\
    (includes ":" time = true ->
     exists obj, parseTimeObject (Some time) = Normal obj /\
                 hours obj = parseInt (JS.before ":" time) /\
                 seconds obj <> None) /\
    parseTimeObject None
      = Normal {| hours := Fin 0; minutes := Fin 0; seconds := None |} /\
    parseTimeObject (Some EmptyString)
      = Normal {| hours := Fin 0; minutes := Fin 0; seconds := None |}.
Proof.
  intros time. split; [|split; [|split; reflexivity]].
  - unfold parseTimeObject. cbn [truthy].
    destruct (String.eqb_spec time EmptyString) as [->|Hne]; cbn [negb].
    + split; [discriminate | intros [H _]; congruence].
    + rewrite (JSFacts.split_unfold ":"%char EmptyString time),
              (JSFacts.after_includes ":" time).
      destruct (JS.after ":" time) as [r|].
      * rewrite (JSFacts.split_unfold ":"%char EmptyString r).
        split; [discriminate | intros [_ H]; discriminate].
      * split; [auto | reflexivity].
  - intros Hcolon. unfold parseTimeObject. cbn [truthy].
    destruct (String.eqb_spec time EmptyString) as [->|Hne]; [discriminate|].
    cbn [negb].
    rewrite (JSFacts.split_unfold ":"%char EmptyString time).
    rewrite (JSFacts.after_includes ":" time) in Hcolon.
    destruct (JS.after ":" time) as [r|]; [|discriminate].
    rewrite (JSFacts.split_unfold ":"%char EmptyString r).
    eexists. split; [reflexivity|]. split; [reflexivity | discriminate].
Qed.

(** X27: printing a time of day and parsing it again gives the time back:
    for natural numbers of hours, minutes and seconds up to 2^53 (the
    integers a Number holds exactly and prints digit by digit),
    [parseTimeObject] of [parseTimeFromTimeObject] of the object is the
    object, whatever the engine prints for larger numbers. *)
Theorem time_object_round_trip :
  forall (largeToString : Z -> string) (h m s : Z),
    (0 <= h <= 2 ^ 53)%Z -> (0 <= m <= 2 ^ 53)%Z -> (0 <= s <= 2 ^ 53)%Z ->
    parseTimeObject
      (parseTimeFromTimeObject largeToString
         (Some {| hours := Fin h; minutes := Fin m; seconds := Some (Fin s) |}))
    = Normal {| hours := Fin h; minutes := Fin m; seconds := Some (Fin s) |}.
Proof.
  intros largeToString h m s Hh Hm Hs.
  destruct (pad2_natural largeToString h Hh) as (Ph & Ch & Nh).
  destruct (pad2_natural largeToString m Hm) as (Pm & Cm & Nm).
  destruct (pad2_natural largeToString s Hs) as (Ps & Cs & Ns).
  unfold parseTimeFromTimeObject.
  cbn [hours minutes seconds truthy append].
  remember (pad2 largeToString (Fin h)) as sh.
  remember (pad2 largeToString (Fin m)) as sm.
  remember (pad2 largeToString (Fin s)) as ss.
  destruct (Z.eqb_spec s 0) as [E|_]; cbn [negb]; unfold parseTimeObject.
  - rewrite (truthy_front sh _ Nh). cbn [negb].
    rewrite (split_one_cons ":"%char _ _ Ch), (split_one_last ":"%char _ Cm).
    cbn [List.length Nat.ltb Nat.leb index nth_error]. unfold parseInt_opt.
    now rewrite Ph, Pm, E.
  - rewrite JSFacts.append_assoc.
    change (String ":"%char sm ++ String ":"%char ss)
      with (String ":"%char (sm ++ String ":"%char ss)).
    rewrite (truthy_front sh _ Nh). cbn [negb].
    rewrite (split_one_cons ":"%char _ _ Ch), (split_one_cons ":"%char _ _ Cm),
            (split_one_last ":"%char _ Cs).
    cbn [List.length Nat.ltb Nat.leb index nth_error]. unfold parseInt_opt.
    now rewrite Ph, Pm, Ps.
Qed.

Lemma time_object_round_trip_witness :
  parseTimeFromTimeObject large_printer
    (Some {| hours := Fin 9; minutes := Fin 5; seconds := Some (Fin 30) |})
    = Some "09:05:30" /\
  parseTimeObject
    (parseTimeFromTimeObject large_printer
       (Some {| hours := Fin 9; minutes := Fin 5; seconds := Some (Fin 30) |}))
    = Normal {| hours := Fin 9; minutes := Fin 5; seconds := Some (Fin 30) |}.
Proof.
  split; [vm_compute; reflexivity|].
  apply (time_object_round_trip large_printer 9 5 30); lia.
Defined.
